(** * The Duet environment (duet/duet_env.py): step engine, reset and
      coordinate observation, as a shallow embedding.

    The Python class [DuetGame] is a mutable object whose methods also read
    ambient state (the keyboard, the pseudo-random source of the obstacle
    manager) and may raise.  Methods are therefore embedded in a small
    state-and-exception monad [Py] in which the state survives a raised
    exception, as a mutated Python object does.

    [Ball], [Obstacle], [ObstacleManager] and [Controller] live in the
    package [duet_backend], outside duet_env.py; they are modelled from the
    specification and marked as such. *)

From Stdlib Require Import ZArith List String Bool Lia.
From Stdlib Require Import PrimFloat FloatOps SpecFloat.
Import ListNotations.
Local Open Scope Z_scope.

(* ------------------------------------------------------------------ *)
(** ** Module constants *)

Definition BOARD_HEIGHT : Z := 960.
Definition BOARD_WIDTH : Z := 540.

Definition CIRCLE_RADIUS : Z := 100.
Definition CIRCLE_WIDTH : Z := 1.
Definition DIST_TO_BOTTOM : Z := CIRCLE_RADIUS + 15.

(** [SPIN_STEP = 0.0224] radians: the double nearest to that decimal. *)
Definition SPIN_STEP : float := 0x1.6f0068db8bac7p-6%float.

Definition NEW_OBS_INTERVAL : Z := 140.

Definition PIXEL_STATE_SHAPE : list Z := [84; 84; 3].
Definition COORD_STATE_SHAPE : list Z := [12].

Definition Color : Type := (Z * Z * Z)%type.
Definition WHITE : Color := (255, 255, 255).
Definition BLACK : Color := (0, 0, 0).
Definition BLUE : Color := (0, 0, 255).
Definition RED : Color := (255, 0, 0).
Definition GREY : Color := (169, 169, 169).

(* ------------------------------------------------------------------ *)
(** ** Phases *)

(** Phases are Python floats, that is IEEE 754 binary64 numbers, and every
    operation on them rounds; they are kept as the kernel's primitive
    floats, which are these numbers with these operations.  The red ball
    starts from the integer 0, which the first spin turns into the double
    it is taken for here. *)
Definition angle_zero : float := 0%float.                       (* 0 *)
Definition angle_pi : float := 0x1.921fb54442d18p+1%float.     (* np.pi *)

(** The number a finite double stands for, in units of [2 ^ -1074] (every
    finite double is a whole multiple of that unit). *)
Definition double_value (x : float) : Z :=
  match Prim2SF x with
  | S754_finite negative m e => (if negative then -1 else 1) * Z.pos m * 2 ^ (e + 1074)
  | _ => 0
  end.

(* ------------------------------------------------------------------ *)
(** ** Obstacle (duet_backend/obstacle.py) *)

(** Modelled from the spec: the class [Obstacle] of the backend package.
    "A rectangle with a fixed width/height, a horizontal position fixed at
    creation, and a vertical position" changed by [move] only; the accessors
    are "pure derived geometry from position + fixed size".  Screen
    coordinates grow downwards, as [DIST_TO_BOTTOM] in duet_env.py shows. *)
Record Obstacle : Type := mkObstacle {
  ob_x : Z;
  ob_y : Z;
  ob_width : Z;
  ob_height : Z
}.

Definition x_span (o : Obstacle) : Z * Z := (ob_x o, ob_x o + ob_width o).
Definition get_top (o : Obstacle) : Z := ob_y o.
Definition get_bottom (o : Obstacle) : Z := ob_y o + ob_height o.

Definition Rect : Type := (Z * Z * Z * Z)%type.   (* left, top, width, height *)
Definition get_rect (o : Obstacle) : Rect :=
  (ob_x o, ob_y o, ob_width o, ob_height o).

(** Modelled from the spec: an obstacle set is "an ordered,
    immutable-membership group of 1-2 Obstacles" created together. *)
Definition Gate : Type := (Obstacle * option Obstacle)%type.

Definition gate_obstacles (g : Gate) : list Obstacle :=
  match g with
  | (o1, None) => [o1]
  | (o1, Some o2) => [o1; o2]
  end.

(* ------------------------------------------------------------------ *)
(** ** Ball (duet_backend/ball.py) *)

(** Modelled from the spec: the class [Ball] of the backend package.  The
    fields are the constructor arguments passed by [_init_balls]. *)
Record Ball : Type := mkBall {
  ball_x : Z;
  ball_y : Z;
  theta : float;
  ball_r : Z;
  spin_step : float;
  ball_draw_rects : bool
}.

(** Modelled from the spec: "true iff the ball's current position falls
    within the obstacle's rectangular bounds"; edges are taken inclusive. *)
Definition collided_with (b : Ball) (o : Obstacle) : bool :=
  let '(x_lo, x_hi) := x_span o in
  (x_lo <=? ball_x b) && (ball_x b <=? x_hi) &&
  (get_top o <=? ball_y b) && (ball_y b <=? get_bottom o).

(** Modelled from the spec: [position() -> (x, y)].  The point is kept in
    the ball, as the constructor receives it, and follows the phase. *)
Definition position (b : Ball) : Z * Z := (ball_x b, ball_y b).

(* ------------------------------------------------------------------ *)
(** ** ObstacleManager (duet_backend/obstacle_manager.py) *)

(** Modelled from the spec: the class [ObstacleManager] of the backend
    package.  It "owns the ordered sequence of live ObstacleSets (oldest
    first)"; the constructor receives [random_obstacles] only. *)
Record ObstacleManager : Type := mkManager {
  om_random : bool;
  obstacle_sets : list (list Obstacle)
}.

Definition ObstacleManager_init (random_obstacles : bool) : ObstacleManager :=
  mkManager random_obstacles [].

(** Modelled from the spec: "pops the oldest (head) set; fails silently
    (no-op) if empty". *)
Definition remove_obstacle_set (m : ObstacleManager) : ObstacleManager :=
  mkManager (om_random m) (tl (obstacle_sets m)).

(** Modelled from the spec: "returns head without removing; undefined/error
    if empty"; [None] is that error. *)
Definition oldest_obstacle_set (m : ObstacleManager) : option (list Obstacle) :=
  hd_error (obstacle_sets m).

(** Modelled from the spec: "true iff every obstacle in the head set has
    fully scrolled past the bottom boundary of the playfield", that is "iff
    every obstacle's top has passed the bottom boundary".  The head of an
    empty manager does not exist: [None]. *)
Definition oldest_out_of_frame (m : ObstacleManager) : option bool :=
  match obstacle_sets m with
  | [] => None
  | s :: _ => Some (forallb (fun o => BOARD_HEIGHT <? get_top o) s)
  end.

Definition get_obstacles (m : ObstacleManager) : list (list Obstacle) :=
  obstacle_sets m.

(* ------------------------------------------------------------------ *)
(** ** The game object and its surroundings *)

(** What has been drawn on the display surface since it was last filled. *)
Inductive DrawCmd : Type :=
| Fill (c : Color)
| DrawCircle (c : Color) (center : Z * Z) (radius width : Z)
| DrawBall (c : Color) (b : Ball)
| DrawRect (c : Color) (r : Rect)
| BlitScore (font : string * Z) (value : Z) (c : Color) (at_xy : Z * Z).

Definition Surface : Type := list DrawCmd.

(** The arguments of a call [gym.spaces.Box(low, high, shape, dtype)].  What
    the constructor makes of a bound its [dtype] cannot hold (it wraps the
    bound or raises, by the version of numpy) is not modelled.  The code
    assigns the space to the class, [DuetGame.observation_space]; with the
    one environment of a state [St] the class attribute and the attribute
    read through [self] are the same. *)
Record Box : Type := mkBox {
  box_low : Z;
  box_high : Z;
  box_shape : list Z;
  box_dtype : string
}.

(** The attributes of a [DuetGame] after [man_init].  [controller] records
    whether the attribute of that name has been created; [action = None] is
    Python's [None]. *)
Record DuetGame : Type := mkGame {
  mode : string;
  capture : bool;
  state_rep : string;
  controller : bool;
  action : option Z;
  screen : Surface;
  score : Z;
  i : Z;
  score_font : string * Z;
  game_over_font : string * Z;
  restart_font : string * Z;
  observation_space : Box;
  n_repeat_action : Z;
  random_obstacles : bool;
  obstacle_manager : ObstacleManager;
  draw_rects : bool;
  blue_ball : Ball;
  red_ball : Ball;
  visualize : bool
}.

(** The attributes [__init__] creates; the others do not exist before
    [man_init]. *)
Record Constructed : Type := mkConstructed {
  c_mode : string;
  c_capture : bool;
  c_state_rep : string;
  c_controller : bool;
  c_action : option Z;
  c_screen : Surface;
  c_score : Z;
  c_i : Z;
  c_score_font : string * Z;
  c_game_over_font : string * Z;
  c_restart_font : string * Z
}.

(** The state of the arrow keys as [pygame.key.get_pressed()] reports it. *)
Record Keys : Type := mkKeys { K_LEFT : bool; K_RIGHT : bool }.

(** Ambient state: the pseudo-random source the obstacle manager draws from
    and the key states the successive keyboard polls will see. *)
Record World : Type := mkWorld {
  rng : Z;
  keyboard : list Keys
}.

Record St : Type := mkSt { self : DuetGame; world : World }.

Inductive Exn : Type :=
| ValueError (msg : string)
| IndexError (site : string)
| AttributeError (name : string).

Inductive Outcome (A : Type) : Type :=
| Returned (a : A)
| Raised (e : Exn).

Arguments Returned {A} a.
Arguments Raised {A} e.

(** A method body: from a state to an outcome and the state left behind. *)
Definition Py (A : Type) : Type := St -> Outcome A * St.

Definition ret {A} (a : A) : Py A := fun s => (Returned a, s).

Definition bind {A B} (c : Py A) (k : A -> Py B) : Py B :=
  fun s =>
    match c s with
    | (Returned a, s') => k a s'
    | (Raised e, s') => (Raised e, s')
    end.

Definition raise {A} (e : Exn) : Py A := fun s => (Raised e, s).

Definition get_self : Py DuetGame := fun s => (Returned (self s), s).

Definition update (f : DuetGame -> DuetGame) : Py unit :=
  fun s => (Returned tt, mkSt (f (self s)) (world s)).

Notation "x <- c ;; k" := (bind c (fun x => k))
  (at level 61, c at next level, right associativity).
Notation "c ;; k" := (bind c (fun _ => k))
  (at level 61, right associativity).

(** Attribute assignments. *)
Definition set_action (v : option Z) (g : DuetGame) : DuetGame :=
  mkGame (mode g) (capture g) (state_rep g) (controller g) v (screen g)
    (score g) (i g) (score_font g) (game_over_font g) (restart_font g)
    (observation_space g) (n_repeat_action g) (random_obstacles g)
    (obstacle_manager g) (draw_rects g) (blue_ball g) (red_ball g) (visualize g).

Definition set_screen (v : Surface) (g : DuetGame) : DuetGame :=
  mkGame (mode g) (capture g) (state_rep g) (controller g) (action g) v
    (score g) (i g) (score_font g) (game_over_font g) (restart_font g)
    (observation_space g) (n_repeat_action g) (random_obstacles g)
    (obstacle_manager g) (draw_rects g) (blue_ball g) (red_ball g) (visualize g).

Definition set_score (v : Z) (g : DuetGame) : DuetGame :=
  mkGame (mode g) (capture g) (state_rep g) (controller g) (action g) (screen g)
    v (i g) (score_font g) (game_over_font g) (restart_font g)
    (observation_space g) (n_repeat_action g) (random_obstacles g)
    (obstacle_manager g) (draw_rects g) (blue_ball g) (red_ball g) (visualize g).

Definition set_i (v : Z) (g : DuetGame) : DuetGame :=
  mkGame (mode g) (capture g) (state_rep g) (controller g) (action g) (screen g)
    (score g) v (score_font g) (game_over_font g) (restart_font g)
    (observation_space g) (n_repeat_action g) (random_obstacles g)
    (obstacle_manager g) (draw_rects g) (blue_ball g) (red_ball g) (visualize g).

Definition set_fonts (f1 f2 f3 : string * Z) (g : DuetGame) : DuetGame :=
  mkGame (mode g) (capture g) (state_rep g) (controller g) (action g) (screen g)
    (score g) (i g) f1 f2 f3
    (observation_space g) (n_repeat_action g) (random_obstacles g)
    (obstacle_manager g) (draw_rects g) (blue_ball g) (red_ball g) (visualize g).

Definition set_obstacle_manager (v : ObstacleManager) (g : DuetGame) : DuetGame :=
  mkGame (mode g) (capture g) (state_rep g) (controller g) (action g) (screen g)
    (score g) (i g) (score_font g) (game_over_font g) (restart_font g)
    (observation_space g) (n_repeat_action g) (random_obstacles g)
    v (draw_rects g) (blue_ball g) (red_ball g) (visualize g).

Definition set_blue_ball (v : Ball) (g : DuetGame) : DuetGame :=
  mkGame (mode g) (capture g) (state_rep g) (controller g) (action g) (screen g)
    (score g) (i g) (score_font g) (game_over_font g) (restart_font g)
    (observation_space g) (n_repeat_action g) (random_obstacles g)
    (obstacle_manager g) (draw_rects g) v (red_ball g) (visualize g).

Definition set_red_ball (v : Ball) (g : DuetGame) : DuetGame :=
  mkGame (mode g) (capture g) (state_rep g) (controller g) (action g) (screen g)
    (score g) (i g) (score_font g) (game_over_font g) (restart_font g)
    (observation_space g) (n_repeat_action g) (random_obstacles g)
    (obstacle_manager g) (draw_rects g) (blue_ball g) v (visualize g).

(** [pygame.key.get_pressed()]: the next key state; no key once the
    recorded ones are used up. *)
Definition get_pressed : Py Keys :=
  fun s =>
    match keyboard (world s) with
    | [] => (Returned (mkKeys false false), s)
    | k :: rest => (Returned k, mkSt (self s) (mkWorld (rng (world s)) rest))
    end.

(** A query of the manager that fails on an empty one. *)
Definition query {A} (site : string) (q : ObstacleManager -> option A) : Py A :=
  g <- get_self ;;
  match q (obstacle_manager g) with
  | Some a => ret a
  | None => raise (IndexError site)
  end.

Definition draw (c : DrawCmd) : Py unit :=
  update (fun g => set_screen (screen g ++ [c]) g).

(* ------------------------------------------------------------------ *)
(** ** What the absent collaborators leave open *)

(** The numeric content of the backend that neither the sources nor the
    specification fix.  Everything below is stated for every backend. *)
Class Backend : Type := {
  (** Cartesian point of a phase on the ring of a given radius
      ("center + radius * (sin theta, -cos theta) (or equivalent ...)"). *)
  orbit_xy : float -> Z -> Z * Z;
  (** [Controller.get_controll(obstacles, red_position, blue_position)]. *)
  get_controll : list (list Obstacle) -> Z * Z -> Z * Z -> Z;
  (** The per-tick vertical displacement of [Obstacle.move]. *)
  OBSTACLE_STEP : Z;
  (** One draw of the pseudo-random source: a value and the next state. *)
  rng_next : Z -> Z * Z;
  (** The gate spawned for a drawn value, and the canonical fixed gate. *)
  random_gate : Z -> Gate;
  fixed_gate : Gate
}.

Section Engine.

Context {backend : Backend}.

(** Modelled from the spec: [spin_left] / [spin_right] "decrement/increment
    theta by a fixed angular step", the position being a function of the
    phase and the radius. *)
Definition spin_to (b : Ball) (a : float) : Ball :=
  let '(x, y) := orbit_xy a (ball_r b) in
  mkBall x y a (ball_r b) (spin_step b) (ball_draw_rects b).

Definition spin_left (b : Ball) : Ball :=
  spin_to b (PrimFloat.sub (theta b) (spin_step b)).     (* theta -= spin_step *)

Definition spin_right (b : Ball) : Ball :=
  spin_to b (PrimFloat.add (theta b) (spin_step b)).     (* theta += spin_step *)

(** Modelled from the spec: [move] "advances vertical position downward by a
    fixed per-tick delta; no bounds check". *)
Definition move (o : Obstacle) : Obstacle :=
  mkObstacle (ob_x o) (ob_y o + OBSTACLE_STEP) (ob_width o) (ob_height o).

(** Modelled from the spec: "appends a new ObstacleSet to the tail of the
    live sequence"; the gap is drawn from the pseudo-random source when the
    manager is configured random, and is the canonical layout otherwise.  The
    source state [r] is ambient: the constructor call in duet_env.py passes
    none. *)
Definition new_obstacle_set (m : ObstacleManager) (r : Z) : ObstacleManager * Z :=
  if om_random m then
    let '(d, r') := rng_next r in
    (mkManager (om_random m) (obstacle_sets m ++ [gate_obstacles (random_gate d)]), r')
  else
    (mkManager (om_random m) (obstacle_sets m ++ [gate_obstacles fixed_gate]), r).

(** The effect of calling [move] on every obstacle met by iterating over the
    manager, set by set. *)
Definition move_all (m : ObstacleManager) : ObstacleManager :=
  mkManager (om_random m) (map (map move) (obstacle_sets m)).

(** [self.obstacle_manager.new_obstacle_set()], drawing from the ambient
    source. *)
Definition spawn_obstacle_set : Py unit :=
  fun s =>
    let '(m, r) := new_obstacle_set (obstacle_manager (self s)) (rng (world s)) in
    (Returned tt,
     mkSt (set_obstacle_manager m (self s)) (mkWorld r (keyboard (world s)))).

(* ------------------------------------------------------------------ *)
(** ** DuetGame: construction *)

Definition freesansbold (size : Z) : string * Z := ("freesansbold.ttf"%string, size).

(** [__init__(self, mode="ai", capture=True)].  No branch rejects a mode. *)
Definition __init__ (mode : string) (capture : bool) : Constructed :=
  mkConstructed mode capture "pixel"
    (if String.eqb mode "contr" then true else false)
    None
    []
    0 1
    (freesansbold 20) (freesansbold 80) (freesansbold 20).

(** [_init_balls(self, draw_rects)]. *)
Definition init_blue_ball (draw_rects : bool) : Ball :=
  let blue_x := BOARD_WIDTH / 2 - CIRCLE_RADIUS in
  let blue_y := BOARD_HEIGHT - DIST_TO_BOTTOM in
  let blue_theta := angle_pi in
  mkBall blue_x blue_y blue_theta CIRCLE_RADIUS SPIN_STEP draw_rects.

Definition init_red_ball (draw_rects : bool) : Ball :=
  let red_x := BOARD_WIDTH / 2 + CIRCLE_RADIUS in
  let red_y := BOARD_HEIGHT - DIST_TO_BOTTOM in
  let red_theta := angle_zero in
  mkBall red_x red_y red_theta CIRCLE_RADIUS SPIN_STEP draw_rects.

Definition _init_balls (draw_rects : bool) : Py unit :=
  update (set_blue_ball (init_blue_ball draw_rects)) ;;
  update (set_red_ball (init_red_ball draw_rects)).

(** The keyword arguments of [man_init]. *)
Record Config : Type := mkConfig {
  cfg_state_rep : string;
  cfg_mode : string;
  cfg_capture : bool;
  cfg_n_repeat_action : Z;
  cfg_random_obstacles : bool;
  cfg_draw_rects : bool;
  cfg_visualize : bool
}.


(** [man_init(self, state_rep, mode, capture, n_repeat_action,
    random_obstacles, draw_rects, visualize)], on an object that went through
    [__init__]; it creates the remaining attributes. *)
Definition man_init (c : Constructed) (cfg : Config) (w : World) : St :=
  let mode := cfg_mode cfg in
  let capture := cfg_capture cfg in
  let controller := if String.eqb mode "contr" then true else c_controller c in
  let action := if String.eqb mode "contr" then c_action c
                else if String.eqb mode "ai" then None else c_action c in
  let state_rep := cfg_state_rep cfg in
  let observation_space :=
    if String.eqb state_rep "pixel"
    then mkBox 0 255 PIXEL_STATE_SHAPE "uint8"
    else mkBox 0 BOARD_HEIGHT COORD_STATE_SHAPE "uint8" in
  let n_repeat_action := cfg_n_repeat_action cfg in
  let random_obstacles := cfg_random_obstacles cfg in
  let '(obstacle_manager, r) :=
    new_obstacle_set (ObstacleManager_init random_obstacles) (rng w) in
  let draw_rects := cfg_draw_rects cfg in
  let visualize := cfg_visualize cfg in
  mkSt
    (mkGame mode capture state_rep controller action (c_screen c)
       (c_score c) (c_i c)
       (c_score_font c) (c_game_over_font c) (c_restart_font c)
       observation_space n_repeat_action random_obstacles obstacle_manager
       draw_rects (init_blue_ball draw_rects) (init_red_ball draw_rects)
       visualize)
    (mkWorld r (keyboard w)).

(* ------------------------------------------------------------------ *)
(** ** DuetGame: observations *)

Inductive Observation : Type :=
| CoordState (coords : list Z)
| PixelState (frame : Surface).

(** [_get_pixel_state(self)]: the current screen, reduced to 84 x 84 RGB.
    The raster is represented by the surface content it is computed from. *)
Definition _get_pixel_state : Py Observation :=
  g <- get_self ;;
  ret (PixelState (screen g)).

(** [_get_coord_state(self)]. *)
Definition _get_coord_state : Py Observation :=
  g <- get_self ;;
  let '(blue_x, blue_y) := position (blue_ball g) in
  let '(red_x, red_y) := position (red_ball g) in
  let coords := [blue_x; blue_y; red_x; red_y] in
  current_obstacle_set <- query "oldest_obstacle_set" oldest_obstacle_set ;;
  match current_obstacle_set with
  | [] => raise (IndexError "current_obstacle_set[0]")
  | obs_1 :: others =>
      let '(x_lo, x_hi) := x_span obs_1 in
      let obs_1_coords := [get_top obs_1; get_bottom obs_1; x_lo; x_hi] in
      let obs_2_coords :=
        match others with
        | [] => [0; 0; 0; 0]                 (* len(current_obstacle_set) == 1 *)
        | obs_2 :: _ =>
            let '(x_lo, x_hi) := x_span obs_2 in
            [get_top obs_2; get_bottom obs_2; x_lo; x_hi]
        end in
      ret (CoordState (coords ++ obs_1_coords ++ obs_2_coords))
  end.

(** The tail shared by [reset] and [step]: [None] when nothing is captured
    or [state_rep] is neither ["coord"] nor ["pixel"]. *)
Definition capture_state : Py (option Observation) :=
  g <- get_self ;;
  if capture g then
    if String.eqb (state_rep g) "coord" then
      o <- _get_coord_state ;; ret (Some o)
    else if String.eqb (state_rep g) "pixel" then
      o <- _get_pixel_state ;; ret (Some o)
    else ret None
  else ret None.

(* ------------------------------------------------------------------ *)
(** ** DuetGame: reset *)

(** [reset(self)]. *)
Definition reset : Py (option Observation) :=
  update (set_screen []) ;;
  update (set_score 0) ;;
  update (set_i 1) ;;
  g <- get_self ;;
  _init_balls (draw_rects g) ;;
  g <- get_self ;;
  update (set_obstacle_manager (ObstacleManager_init (random_obstacles g))) ;;
  spawn_obstacle_set ;;
  update (set_fonts (freesansbold 20) (freesansbold 80) (freesansbold 20)) ;;
  capture_state.

(* ------------------------------------------------------------------ *)
(** ** DuetGame: one step *)

Definition both_balls (f : Ball -> Ball) : Py unit :=
  update (fun g => set_blue_ball (f (blue_ball g)) g) ;;
  update (fun g => set_red_ball (f (red_ball g)) g).

(** [_move_balls(self)]. *)
Definition _move_balls : Py unit :=
  g <- get_self ;;
  if String.eqb (mode g) "man" then
    keys <- get_pressed ;;
    if K_LEFT keys then both_balls spin_left
    else if K_RIGHT keys then both_balls spin_right
    else ret tt
  else if String.eqb (mode g) "contr" then
    if controller g then
      let controll :=
        get_controll (get_obstacles (obstacle_manager g))
                     (position (red_ball g)) (position (blue_ball g)) in
      if controll =? -1 then both_balls spin_left
      else if controll =? 1 then both_balls spin_right
      else ret tt
    else raise (AttributeError "controller")
  else if String.eqb (mode g) "ai" then
    match action g with
    | Some 1 => both_balls spin_left
    | Some 2 => both_balls spin_right
    | _ => ret tt
    end
  else
    raise (ValueError ("Invalid game mode '" ++ mode g ++ "'")).

(** [_move_obstacles(self)]. *)
Definition _move_obstacles : Py unit :=
  update (fun g => set_obstacle_manager (move_all (obstacle_manager g)) g).

Definition _draw_circle : Py unit :=
  draw (DrawCircle GREY (BOARD_WIDTH / 2, BOARD_HEIGHT - DIST_TO_BOTTOM)
          CIRCLE_RADIUS CIRCLE_WIDTH).

Definition _draw_balls : Py unit :=
  g <- get_self ;;
  draw (DrawBall BLUE (blue_ball g)) ;;
  draw (DrawBall RED (red_ball g)).

Definition _draw_obstacles : Py unit :=
  g <- get_self ;;
  update (fun g' =>
    set_screen (screen g' ++
                map (fun obstacle => DrawRect WHITE (get_rect obstacle))
                    (List.concat (obstacle_sets (obstacle_manager g)))) g').

Definition _draw_score : Py unit :=
  g <- get_self ;;
  draw (BlitScore (score_font g) (score g) WHITE (10, BOARD_HEIGHT - 25)).

(** [render(self)]: presents the frame and waits; no attribute changes. *)
Definition render : Py unit := ret tt.

(** The collision loop over the oldest set: either hit sets
    [game_over = True] and [reward = 0]. *)
Definition check_collisions (blue red : Ball) (oldest : list Obstacle)
    (acc : bool * Z) : bool * Z :=
  fold_left
    (fun (acc : bool * Z) obstacle =>
       let acc := if collided_with blue obstacle then (true, 0) else acc in
       if collided_with red obstacle then (true, 0) else acc)
    oldest acc.

(** The body of [for i in range(self.n_repeat_action)], for loop index [k];
    [acc] holds the locals [game_over] and [reward], which are set before the
    loop and carried from one pass to the next. *)
Definition sub_step (k : Z) (acc : bool * Z) : Py (bool * Z) :=
  let '(game_over, reward) := acc in
  (* Move the player balls *)
  _move_balls ;;
  (* Move all obstacles downward *)
  _move_obstacles ;;
  (* If an obstacle went out of frame, delete it *)
  out <- query "oldest_out_of_frame" oldest_out_of_frame ;;
  reward <- (if out : bool then
               update (fun g => set_obstacle_manager
                                  (remove_obstacle_set (obstacle_manager g)) g) ;;
               update (fun g => set_score (score g + 1) g) ;;
               ret 1
             else ret reward) ;;
  (* If it is time, make a new obstacle *)
  g <- get_self ;;
  (if i g mod NEW_OBS_INTERVAL =? 0 then spawn_obstacle_set else ret tt) ;;
  (* Draw the game *)
  update (set_screen [Fill BLACK]) ;;
  _draw_circle ;;
  _draw_balls ;;
  _draw_obstacles ;;
  _draw_score ;;
  (* If either ball has collided, quit *)
  oldest <- query "oldest_obstacle_set" oldest_obstacle_set ;;
  g <- get_self ;;
  let '(game_over, reward) :=
    check_collisions (blue_ball g) (red_ball g) oldest (game_over, reward) in
  update (fun g => set_i (i g + 1) g) ;;
  update (fun g => set_i (i g mod NEW_OBS_INTERVAL) g) ;;
  g <- get_self ;;
  (if visualize g && negb (k =? n_repeat_action g - 1) then render else ret tt) ;;
  ret (game_over, reward).

(** The [for] loop over the indices [ks]. *)
Fixpoint for_range (ks : list Z) (acc : bool * Z) : Py (bool * Z) :=
  match ks with
  | [] => ret acc
  | k :: ks' => acc' <- sub_step k acc ;; for_range ks' acc'
  end.

(** [range(n)]: empty for [n <= 0]. *)
Definition range (n : Z) : list Z := map Z.of_nat (seq 0 (Z.to_nat n)).

(** [step(self, action)]; the empty info dictionary is left out of the
    returned tuple. *)
Definition step (a : option Z) : Py (option Observation * Z * bool) :=
  let game_over := false in
  let reward := 0 in
  update (set_action a) ;;
  g <- get_self ;;
  acc <- for_range (range (n_repeat_action g)) (game_over, reward) ;;
  let '(game_over, reward) := acc in
  state <- capture_state ;;
  ret (state, reward, game_over).

End Engine.

(* ------------------------------------------------------------------ *)
(** ** Vocabulary of the properties *)

Section Vocabulary.

Context {backend : Backend}.

(** The surface after the drawing calls of one sub-step. *)
Definition paint (g : DuetGame) : Surface :=
  [Fill BLACK] ++
  [DrawCircle GREY (BOARD_WIDTH / 2, BOARD_HEIGHT - DIST_TO_BOTTOM)
     CIRCLE_RADIUS CIRCLE_WIDTH] ++
  [DrawBall BLUE (blue_ball g)] ++ [DrawBall RED (red_ball g)] ++
  map (fun obstacle => DrawRect WHITE (get_rect obstacle))
      (List.concat (obstacle_sets (obstacle_manager g))) ++
  [BlitScore (score_font g) (score g) WHITE (10, BOARD_HEIGHT - 25)].

(** What [_move_balls] may do to a ball. *)
Definition ball_motion (f : Ball -> Ball) : Prop :=
  f = (fun b => b) \/ f = spin_left \/ f = spin_right.

Definition with_balls (f : Ball -> Ball) (g : DuetGame) : DuetGame :=
  set_red_ball (f (red_ball g)) (set_blue_ball (f (blue_ball g)) g).

(** The successive effects of one sub-step once the balls have moved:
    obstacles move, the oldest set is retired if [out] holds, a set is
    spawned when the counter is a multiple of the interval, the frame is
    drawn, the counter advances. *)
Definition obstacles_moved (s : St) : St :=
  mkSt (set_obstacle_manager (move_all (obstacle_manager (self s))) (self s))
       (world s).

Definition after_retirement (g : DuetGame) (out : bool) : DuetGame :=
  if out then
    let g' := set_obstacle_manager (remove_obstacle_set (obstacle_manager g)) g in
    set_score (score g' + 1) g'
  else g.

Definition after_spawn (s : St) : St :=
  if i (self s) mod NEW_OBS_INTERVAL =? 0 then snd (spawn_obstacle_set s) else s.

Definition painted (s : St) : St :=
  mkSt (set_screen (paint (self s)) (self s)) (world s).

Definition counted (s : St) : St :=
  mkSt (set_i ((i (self s) + 1) mod NEW_OBS_INTERVAL) (self s)) (world s).

(** The attributes no sub-step and no [reset] assigns. *)
Definition config_of (g : DuetGame) :=
  (state_rep g, mode g, capture g, n_repeat_action g, random_obstacles g,
   draw_rects g, visualize g, controller g, observation_space g).

(** The gate [new_obstacle_set] appends. *)
Definition spawned_gate (m : ObstacleManager) (r : Z) : Gate :=
  if om_random m then random_gate (fst (rng_next r)) else fixed_gate.

(** Either ball lies within one of the given obstacles. *)
Definition hits (blue red : Ball) (oldest : list Obstacle) : bool :=
  existsb (fun o => collided_with blue o || collided_with red o) oldest.

(** The state [reset] leaves. *)
Definition reset_state (s : St) : St :=
  let g := self s in
  let '(m, r) :=
    new_obstacle_set (ObstacleManager_init (random_obstacles g)) (rng (world s)) in
  mkSt
    (mkGame (mode g) (capture g) (state_rep g) (controller g) (action g) []
       0 1 (freesansbold 20) (freesansbold 80) (freesansbold 20)
       (observation_space g) (n_repeat_action g) (random_obstacles g) m
       (draw_rects g) (init_blue_ball (draw_rects g)) (init_red_ball (draw_rects g))
       (visualize g))
    (mkWorld r (keyboard (world s))).

(** The four numbers the coordinate observation holds for an obstacle. *)
Definition box_coords (o : Obstacle) : list Z :=
  [get_top o; get_bottom o; fst (x_span o); snd (x_span o)].





(** The sub-step that starts in [s] finds the oldest set out of frame once
    balls and obstacles have moved, and so retires it. *)
Definition retirement_due (s : St) : bool :=
  match (_move_balls ;; _move_obstacles ;;
         query "oldest_out_of_frame" oldest_out_of_frame) s with
  | (Returned out, _) => out
  | (Raised _, _) => false
  end.

(** Either ball lies within an obstacle of the oldest live set. *)
Definition ball_hits (g : DuetGame) : bool :=
  match oldest_obstacle_set (obstacle_manager g) with
  | Some oldest => hits (blue_ball g) (red_ball g) oldest
  | None => false
  end.

(** The sub-steps with indices [ks], run from [s], all return, and none of
    them retires a set or detects a collision. *)
Fixpoint quiet (ks : list Z) (s : St) : Prop :=
  match ks with
  | [] => True
  | k :: ks' =>
      retirement_due s = false /\
      match sub_step k (false, 0) s with
      | (Returned _, s') => ball_hits (self s') = false /\ quiet ks' s'
      | (Raised _, _) => False
      end
  end.

(** The three control modes [_move_balls] knows. *)
Definition valid_mode (m : string) : bool :=
  String.eqb m "man" || String.eqb m "contr" || String.eqb m "ai".

(** The state in which [game_loop] enters its loop: [self.i = 1] and
    [self.score = 0], everything else as it was. *)
Definition game_loop_entry (s : St) : St :=
  mkSt (set_score 0 (set_i 1 (self s))) (world s).

(** States an environment goes through: after construction and [man_init],
    after a [reset], after the assignment of the action at the head of
    [step], after each pass of the frame-skip loop, and after the two
    assignments at the head of [game_loop], whose loop then calls [step].
    [_game_over] assigns no attribute (it draws two texts on the surface and
    waits) and is left out. *)
Inductive reachable : St -> Prop :=
| reach_man_init : forall m c cfg w,
    reachable (man_init (__init__ m c) cfg w)
| reach_reset : forall s,
    reachable s -> reachable (snd (reset s))
| reach_action : forall s a,
    reachable s -> reachable (snd (update (set_action a) s))
| reach_sub_step : forall s k acc,
    reachable s -> reachable (snd (sub_step k acc s))
| reach_game_loop : forall s,
    reachable s -> reachable (game_loop_entry s).

(** Successive [step] calls, up to the first that raises. *)
Fixpoint steps (acts : list (option Z))
    : Py (list (option Observation * Z * bool)) :=
  match acts with
  | [] => ret []
  | a :: acts' => r <- step a ;; rs <- steps acts' ;; ret (r :: rs)
  end.




(** Some obstacle of the set has its top within the board now and after
    each of the next [n - 1] moves. *)
Definition stays_in_frame (n : Z) (set : list Obstacle) : Prop :=
  exists o, In o set /\
    forall a, 0 <= a < n -> get_top o + a * OBSTACLE_STEP <= BOARD_HEIGHT.

(** A spawned gate needs at least [NEW_OBS_INTERVAL] moves to leave the
    frame. *)
Definition gates_outlast_interval : Prop :=
  stays_in_frame NEW_OBS_INTERVAL (gate_obstacles fixed_gate) /\
  forall d, stays_in_frame NEW_OBS_INTERVAL (gate_obstacles (random_gate d)).

(** Moves left to the newest set before the next spawn is due, plus one. *)
Definition spawn_margin (counter : Z) : Z :=
  if counter =? 0 then 1 else NEW_OBS_INTERVAL + 1 - counter.

(** The cadence invariant: the counter is a residue and the newest set
    outlasts the moves that precede the next spawn. *)
Definition cadence (g : DuetGame) : Prop :=
  0 <= i g < NEW_OBS_INTERVAL /\
  exists older newest,
    obstacle_sets (obstacle_manager g) = older ++ [newest] /\
    stays_in_frame (spawn_margin (i g)) newest.

Definition is_IndexError (e : Exn) : bool :=
  match e with IndexError _ => true | _ => false end.

(** The error of a query for the oldest set of an empty manager. *)
Definition queries_empty_manager (e : Exn) : bool :=
  match e with
  | IndexError site =>
      String.eqb site "oldest_obstacle_set" || String.eqb site "oldest_out_of_frame"
  | _ => false
  end.

(** The message [_move_balls] raises with. *)
Definition invalid_mode_error (m : string) : Exn :=
  ValueError ("Invalid game mode '" ++ m ++ "'").

End Vocabulary.

(* ------------------------------------------------------------------ *)
(** ** The rest of the class, and vocabulary for its properties *)

(** [state_size(self)] and [nb_actions(self)]. *)
Definition state_size : Z := BOARD_WIDTH * BOARD_HEIGHT.
Definition nb_actions : Z := 3.

(** The class attribute [reward_range = (0, 1)]. *)
Definition reward_range : Z * Z := (0, 1).

(** What [pygame.event.get()] returns: the pending events, of which only
    the type is read. *)
Inductive Event : Type :=
| QUIT
| OtherEvent (type : Z).

(** [for event in pygame.event.get(): if event.type == pygame.QUIT: ...]. *)
Definition window_closed (events : list Event) : bool :=
  existsb (fun event => match event with QUIT => true | OtherEvent _ => false end)
          events.

Section Further.

Context {backend : Backend}.

(** The [while not (game_over or quit_game)] loop of [game_loop], entered
    with both flags false.  [polls] holds what the successive calls of
    [pygame.event.get()] return (nothing once it is used up); [fuel] bounds
    the number of passes, and [None] is returned when it runs out. *)
Fixpoint game_loop_while (fuel : nat) (polls : list (list Event))
    : Py (option (bool * bool)) :=
  match fuel with
  | O => ret None
  | S fuel' =>
      r <- step None ;;
      let '(_, _, game_over) := r in
      render ;;
      (* Quit the game if player closed the window *)
      let quit_game := window_closed (hd [] polls) in
      if game_over || quit_game then ret (Some (game_over, quit_game))
      else game_loop_while fuel' (tl polls)
  end.

(** [game_loop(self)].  [_game_over], which draws the closing texts and
    waits for ESC or RETURN, is passed in as [game_over_screen]. *)
Definition game_loop (game_over_screen : Py bool) (fuel : nat)
    (polls : list (list Event)) : Py (option bool) :=
  update (set_i 1) ;;
  update (set_score 0) ;;
  r <- game_loop_while fuel polls ;;
  match r with
  | None => ret None
  | Some (game_over, quit_game) =>
      if game_over : bool then
        quit_game <- game_over_screen ;; ret (Some quit_game)
      else ret (Some quit_game)
  end.

(** What the sub-steps with indices [ks] do, one pair per sub-step that
    returns: whether it retires the oldest set, whether it detects a
    collision. *)
Fixpoint tick_events (ks : list Z) (s : St) : list (bool * bool) :=
  match ks with
  | [] => []
  | k :: ks' =>
      match sub_step k (false, 0) s with
      | (Returned _, s') =>
          (retirement_due s, ball_hits (self s')) :: tick_events ks' s'
      | (Raised _, _) => []
      end
  end.

(** The effect of one such pair on the locals [game_over] and [reward]. *)
Definition settle (acc : bool * Z) (event : bool * bool) : bool * Z :=
  let '(game_over, reward) := acc in
  let '(retired, hit) := event in
  (game_over || hit, if hit then 0 else if retired then 1 else reward).

(** The motion [_move_balls] applies in mode ["ai"] for a stored action. *)
Definition action_motion (a : option Z) : Ball -> Ball :=
  match a with
  | Some 1 => spin_left
  | Some 2 => spin_right
  | _ => fun b => b
  end.

(** A state from which a sub-step cannot raise: the manager keeps the
    spawn cadence, no live set is empty, the mode is one of the three, and
    the controller exists when the mode asks for it. *)
Definition no_empty_set (m : ObstacleManager) : Prop :=
  Forall (fun set => set <> []) (obstacle_sets m).

Definition ready (g : DuetGame) : Prop :=
  cadence g /\
  no_empty_set (obstacle_manager g) /\
  valid_mode (mode g) = true /\
  (String.eqb (mode g) "contr" = true -> controller g = true).

(** The state with the head assignment of [step] done. *)
Definition with_action (a : option Z) (s : St) : St :=
  mkSt (set_action a (self s)) (world s).

End Further.

(* ------------------------------------------------------------------ *)
(** ** A complete backend for the worked examples *)

Module Sample.

(** Fixed-point trigonometry in millionths: phases in micro-radians. *)
Definition MICRO : Z := 1000000.
Definition PI_MICRO : Z := 3141593.

(** [series n j term x]: the alternating Taylor sum that starts with [term]
    of index [j] and has [n] terms. *)
Fixpoint series (n : nat) (j : Z) (term x : Z) : Z :=
  match n with
  | O => 0
  | S n' =>
      term + series n' (j + 2) (- (term * x / MICRO * x / MICRO) / ((j + 1) * (j + 2))) x
  end.

Definition cos_micro (x : Z) : Z := series 14 0 MICRO x.
Definition sin_micro (x : Z) : Z := series 14 1 x x.

(** The phase in micro-radians, rounded to the nearest and brought into
    [-pi, pi). *)
Definition phase_micro (a : float) : Z :=
  let x := (2 * MICRO * double_value a + 2 ^ 1074) / (2 * 2 ^ 1074) in
  (x + PI_MICRO) mod (2 * PI_MICRO) - PI_MICRO.

Definition round_micro (v : Z) : Z := (v + MICRO / 2) / MICRO.

(** Modelled from the spec: the point of the ring at a phase, with the ring
    centred where [_draw_circle] draws it and parametrized so that the phases
    [pi] and [0] give the positions [_init_balls] passes to the constructor. *)
Definition sample_orbit_xy (a : float) (r : Z) : Z * Z :=
  let x := phase_micro a in
  (BOARD_WIDTH / 2 + round_micro (r * cos_micro x),
   BOARD_HEIGHT - DIST_TO_BOTTOM + round_micro (r * sin_micro x)).

(** A controller that always idles. *)
Definition sample_get_controll (obstacles : list (list Obstacle))
    (red_position blue_position : Z * Z) : Z := 0.

Definition SAMPLE_OBSTACLE_STEP : Z := 5.
Definition SAMPLE_OBSTACLE_HEIGHT : Z := 30.
Definition SAMPLE_GAP : Z := 240.

(** A linear congruential generator. *)
Definition sample_rng_next (r : Z) : Z * Z :=
  let r' := (1103515245 * r + 12345) mod 2147483648 in
  (r', r').

(** Modelled from the spec: a gate spans the board but for one gap whose
    left edge is chosen "from the valid horizontal range such that the gate
    remains fully within playfield bounds"; it enters just above the board. *)
Definition gate_with_gap (gap_left : Z) : Gate :=
  let y := - (SAMPLE_OBSTACLE_HEIGHT + 1) in
  let gap_right := gap_left + SAMPLE_GAP in
  let left_part := mkObstacle 0 y gap_left SAMPLE_OBSTACLE_HEIGHT in
  let right_part :=
    mkObstacle gap_right y (BOARD_WIDTH - gap_right) SAMPLE_OBSTACLE_HEIGHT in
  if gap_left <=? 0 then (right_part, None)
  else if BOARD_WIDTH <=? gap_right then (left_part, None)
  else (left_part, Some right_part).

Definition sample_random_gate (d : Z) : Gate :=
  gate_with_gap (d mod (BOARD_WIDTH - SAMPLE_GAP + 1)).

(** The canonical layout: the gap in the middle of the board. *)
Definition sample_fixed_gate : Gate :=
  gate_with_gap ((BOARD_WIDTH - SAMPLE_GAP) / 2).

#[export] Instance sample_backend : Backend := {|
  orbit_xy := sample_orbit_xy;
  get_controll := sample_get_controll;
  OBSTACLE_STEP := SAMPLE_OBSTACLE_STEP;
  rng_next := sample_rng_next;
  random_gate := sample_random_gate;
  fixed_gate := sample_fixed_gate
|}.

(** Configurations in external-action mode with coordinate observations. *)
Definition four_skip : Config := mkConfig "coord" "ai" true 4 true false false.
Definition two_skip_fixed : Config := mkConfig "coord" "ai" true 2 false false false.

(** The ambient sources at the start of the examples: the pseudo-random
    source in state 1, no key pressed. *)
Definition quiet_world : World := mkWorld 1 [].

(** [n] times the idle action. *)
Definition idle (n : nat) : list (option Z) := repeat (Some 0) n.

(** Frame-skip 4, random gates: the environment after construction,
    [man_init] and 42 idle steps.  The first gate covers the blue ball and
    is two moves away from it. *)
Definition collision_course : St :=
  snd (steps (idle 42) (man_init (__init__ "ai" true) four_skip quiet_world)).

(** Frame-skip 2, fixed gates: the environment after 99 idle steps.  The
    first gate is one move away from leaving the frame. *)
Definition retiring : St :=
  snd (steps (idle 99) (man_init (__init__ "ai" true) two_skip_fixed quiet_world)).

(** Frame-skip 2, fixed gates: the environment after 139 idle steps.  The
    counter is 139 and one gate is live, 61 moves away from leaving the
    frame; the next spawn is due in the next sub-step but one. *)
Definition mid_episode : St :=
  snd (steps (idle 139) (man_init (__init__ "ai" true) two_skip_fixed quiet_world)).

(** A source state for which the drawn gap touches the left edge, so that
    the gate has a single obstacle. *)
Definition one_obstacle_gate : St :=
  man_init (__init__ "ai" true) four_skip (mkWorld 305 []).

(** [step] with the head assignment of the action done. *)
Definition acting (a : option Z) (s : St) : St :=
  mkSt (set_action a (self s)) (world s).

(** Further configurations, and a keyboard: left held for two polls, then
    right, then nothing. *)
Definition keyboard_mode : Config := mkConfig "coord" "man" true 3 false false false.
Definition pixel_mode : Config := mkConfig "pixel" "ai" true 2 false false false.
Definition no_sub_steps : Config := mkConfig "coord" "ai" true 0 false false false.
Definition unknown_rep : Config := mkConfig "both" "ai" true 1 false false false.

Definition four_polls : World :=
  mkWorld 1 [mkKeys true false; mkKeys true false; mkKeys false true;
             mkKeys false false].

End Sample.

(* ------------------------------------------------------------------ *)
(** ** Symbolic execution of method bodies *)

Ltac py_run :=
  cbv [bind ret raise get_self update query draw render
       _draw_circle _draw_balls _draw_obstacles _draw_score _move_obstacles
       _init_balls both_balls with_balls
       set_action set_screen set_score set_i set_fonts set_obstacle_manager
       set_blue_ball set_red_ball
       mode capture state_rep controller action screen score i score_font
       game_over_font restart_font observation_space n_repeat_action
       random_obstacles obstacle_manager draw_rects blue_ball red_ball visualize
       self world rng keyboard obstacles_moved painted counted paint fst snd];
  cbn [app].

Section Properties.

Context {backend : Backend}.

(** *** The collision loop *)

Lemma check_collisions_done blue red oldest :
  check_collisions blue red oldest (true, 0) = (true, 0).
Proof.
  unfold check_collisions.
  induction oldest as [|o rest IH]; cbn [fold_left]; [reflexivity|].
  destruct (collided_with blue o), (collided_with red o); exact IH.
Qed.

Lemma check_collisions_hit blue red oldest acc :
  hits blue red oldest = true ->
  check_collisions blue red oldest acc = (true, 0).
Proof.
  unfold hits. revert acc.
  induction oldest as [|o rest IH]; intros acc H; cbn [existsb] in H; [discriminate|].
  change (check_collisions blue red (o :: rest) acc) with
    (check_collisions blue red rest
       (let acc := if collided_with blue o then (true, 0) else acc in
        if collided_with red o then (true, 0) else acc)).
  cbv zeta.
  destruct (collided_with blue o), (collided_with red o); cbn [orb] in H;
    try apply check_collisions_done.
  now apply IH.
Qed.

Lemma check_collisions_miss blue red oldest acc :
  hits blue red oldest = false ->
  check_collisions blue red oldest acc = acc.
Proof.
  unfold hits. revert acc.
  induction oldest as [|o rest IH]; intros acc H; cbn [existsb] in H; [reflexivity|].
  apply orb_false_iff in H as [H1 H2]. apply orb_false_iff in H1 as [H1 H3].
  change (check_collisions blue red (o :: rest) acc) with
    (check_collisions blue red rest
       (let acc := if collided_with blue o then (true, 0) else acc in
        if collided_with red o then (true, 0) else acc)).
  cbv zeta. rewrite H1, H3. now apply IH.
Qed.

Lemma check_collisions_spec blue red oldest go rw :
  check_collisions blue red oldest (go, rw) =
  (go || hits blue red oldest, if hits blue red oldest then 0 else rw).
Proof.
  destruct (hits blue red oldest) eqn:H.
  - rewrite (check_collisions_hit _ _ _ _ H). now rewrite orb_true_r.
  - rewrite (check_collisions_miss _ _ _ _ H). now rewrite orb_false_r.
Qed.

(** *** One sub-step, phase by phase *)

Lemma sub_step_unfold k go rw s :
  sub_step k (go, rw) s =
  match _move_balls s with
  | (Raised e, s1) => (Raised e, s1)
  | (Returned _, s1) =>
      let s2 := obstacles_moved s1 in
      match oldest_out_of_frame (obstacle_manager (self s2)) with
      | None => (Raised (IndexError "oldest_out_of_frame"), s2)
      | Some out =>
          let s5 := painted (after_spawn (mkSt (after_retirement (self s2) out) (world s2))) in
          match oldest_obstacle_set (obstacle_manager (self s5)) with
          | None => (Raised (IndexError "oldest_obstacle_set"), s5)
          | Some oldest =>
              (Returned (check_collisions (blue_ball (self s5)) (red_ball (self s5)) oldest
                           (go, if out then 1 else rw)),
               counted s5)
          end
      end
  end.
Proof.
  unfold sub_step. unfold bind at 1.
  destruct (_move_balls s) as [[[]|e] [g1 w1]]; [|reflexivity].
  unfold bind at 1. cbn [_move_obstacles update self world obstacles_moved].
  unfold bind at 1. unfold query at 1. unfold bind at 1. cbn [get_self self].
  cbv zeta.
  destruct (oldest_out_of_frame _) as [out|] eqn:Hout; [|reflexivity].
  cbn [ret].
  assert (tail : forall rw3 s3,
    ((if i (self s3) mod NEW_OBS_INTERVAL =? 0 then spawn_obstacle_set else ret tt);;
     update (set_screen [Fill BLACK]);;
     _draw_circle;;
     _draw_balls;;
     _draw_obstacles;;
     _draw_score;;
     oldest <- query "oldest_obstacle_set" oldest_obstacle_set;;
     g <- get_self;;
     (let '(game_over, reward) :=
        check_collisions (blue_ball g) (red_ball g) oldest (go, rw3) in
      update (fun g0 : DuetGame => set_i (i g0 + 1) g0);;
      update (fun g0 : DuetGame => set_i (i g0 mod NEW_OBS_INTERVAL) g0);;
      g0 <- get_self;;
      (if visualize g0 && negb (k =? n_repeat_action g0 - 1) then render else ret tt);;
      ret (game_over, reward))) s3 =
    match oldest_obstacle_set (obstacle_manager (self (painted (after_spawn s3)))) with
    | None => (Raised (IndexError "oldest_obstacle_set"), painted (after_spawn s3))
    | Some oldest =>
        (Returned (check_collisions (blue_ball (self (painted (after_spawn s3))))
                     (red_ball (self (painted (after_spawn s3)))) oldest (go, rw3)),
         counted (painted (after_spawn s3)))
    end).
  { intros rw3 [g3 w3]. unfold after_spawn. cbn [self].
    destruct (i g3 mod NEW_OBS_INTERVAL =? 0).
    - unfold bind at 1. unfold spawn_obstacle_set at 1. cbn [self world].
      destruct (new_obstacle_set (obstacle_manager g3) (rng w3)) as [m r] eqn:Hn.
      cbn [snd]. unfold spawn_obstacle_set. cbn [self world]. rewrite Hn. cbn [snd].
      clear Hn. destruct g3. py_run.
      destruct (oldest_obstacle_set m); [|reflexivity].
      destruct (check_collisions _ _ _ _).
      destruct (_ && _); reflexivity.
    - destruct g3. py_run.
      destruct (oldest_obstacle_set _); [|reflexivity].
      destruct (check_collisions _ _ _ _).
      destruct (_ && _); reflexivity. }
  destruct out.
  - unfold bind at 1. cbn [update ret self world]. unfold bind at 1. cbn [update ret self world].
    unfold bind at 1. cbn [update ret self world get_self].
    unfold bind at 1. cbn [get_self self].
    exact (tail 1 (mkSt (after_retirement (set_obstacle_manager (move_all (obstacle_manager g1)) g1) true) w1)).
  - unfold bind at 1. cbn [update ret self world].
    unfold bind at 1. cbn [get_self self].
    exact (tail rw (mkSt (after_retirement (set_obstacle_manager (move_all (obstacle_manager g1)) g1) false) w1)).
Qed.

(** *** What [_move_balls] does *)

Lemma move_balls_cases s :
  (exists f kb, ball_motion f /\
     _move_balls s =
       (Returned tt, mkSt (with_balls f (self s)) (mkWorld (rng (world s)) kb))) \/
  (exists e, is_IndexError e = false /\ _move_balls s = (Raised e, s)).
Proof.
  destruct s as [g [r kbd]].
  unfold _move_balls, bind, get_self, get_pressed. cbn [self world keyboard rng].
  destruct (String.eqb (mode g) "man") eqn:Hman.
  - left. destruct kbd as [|key rest]; cbn [self world keyboard rng].
    + exists (fun b => b), []. split; [now left|]. destruct g; reflexivity.
    + destruct (K_LEFT key); [|destruct (K_RIGHT key)].
      * exists spin_left, rest. split; [right; now left|]. destruct g; reflexivity.
      * exists spin_right, rest. split; [right; now right|]. destruct g; reflexivity.
      * exists (fun b => b), rest. split; [now left|]. destruct g; reflexivity.
  - destruct (String.eqb (mode g) "contr") eqn:Hcontr.
    + destruct (controller g) eqn:Hc.
      * left.
        destruct (_ =? -1); [|destruct (_ =? 1)].
        -- exists spin_left, kbd. split; [right; now left|]. destruct g; reflexivity.
        -- exists spin_right, kbd. split; [right; now right|]. destruct g; reflexivity.
        -- exists (fun b => b), kbd. split; [now left|]. destruct g; reflexivity.
      * right. eexists. split; [|reflexivity]. reflexivity.
    + destruct (String.eqb (mode g) "ai") eqn:Hai.
      * left.
        destruct (action g) as [[|[p|p|]|p]|].
        all: try (exists (fun b => b), kbd; split; [now left|]; destruct g; reflexivity).
        -- destruct p.
           all: try (exists (fun b => b), kbd; split; [now left|]; destruct g; reflexivity).
           exists spin_right, kbd. split; [right; now right|]. destruct g; reflexivity.
        -- exists spin_left, kbd. split; [right; now left|]. destruct g; reflexivity.
      * right. eexists. split; [|reflexivity]. reflexivity.
Qed.

(** *** Attribute by attribute *)

Lemma new_obstacle_set_sets m r :
  fst (new_obstacle_set m r) =
  mkManager (om_random m) (obstacle_sets m ++ [gate_obstacles (spawned_gate m r)]).
Proof.
  unfold new_obstacle_set, spawned_gate.
  destruct (om_random m); [destruct (rng_next r)|]; reflexivity.
Qed.

Lemma with_balls_fields f g :
  config_of (with_balls f g) = config_of g /\
  score (with_balls f g) = score g /\
  i (with_balls f g) = i g /\
  obstacle_manager (with_balls f g) = obstacle_manager g /\
  blue_ball (with_balls f g) = f (blue_ball g) /\
  red_ball (with_balls f g) = f (red_ball g).
Proof. destruct g; repeat split. Qed.

Lemma obstacles_moved_fields s :
  config_of (self (obstacles_moved s)) = config_of (self s) /\
  score (self (obstacles_moved s)) = score (self s) /\
  i (self (obstacles_moved s)) = i (self s) /\
  obstacle_manager (self (obstacles_moved s)) = move_all (obstacle_manager (self s)) /\
  blue_ball (self (obstacles_moved s)) = blue_ball (self s) /\
  red_ball (self (obstacles_moved s)) = red_ball (self s).
Proof. destruct s as [g w]; destruct g; repeat split. Qed.

Lemma after_retirement_fields g out :
  config_of (after_retirement g out) = config_of g /\
  score (after_retirement g out) = score g + (if out then 1 else 0) /\
  i (after_retirement g out) = i g /\
  obstacle_manager (after_retirement g out) =
    (if out then remove_obstacle_set (obstacle_manager g) else obstacle_manager g) /\
  blue_ball (after_retirement g out) = blue_ball g /\
  red_ball (after_retirement g out) = red_ball g.
Proof.
  destruct g, out; cbn; repeat split; lia.
Qed.

Lemma after_spawn_fields s :
  config_of (self (after_spawn s)) = config_of (self s) /\
  score (self (after_spawn s)) = score (self s) /\
  i (self (after_spawn s)) = i (self s) /\
  obstacle_manager (self (after_spawn s)) =
    (if i (self s) mod NEW_OBS_INTERVAL =? 0
     then fst (new_obstacle_set (obstacle_manager (self s)) (rng (world s)))
     else obstacle_manager (self s)) /\
  blue_ball (self (after_spawn s)) = blue_ball (self s) /\
  red_ball (self (after_spawn s)) = red_ball (self s).
Proof.
  unfold after_spawn. destruct (_ =? 0); [|repeat split].
  unfold spawn_obstacle_set.
  destruct (new_obstacle_set _ _) as [m r]. destruct s as [g w]; destruct g; repeat split.
Qed.

Lemma painted_fields s :
  config_of (self (painted s)) = config_of (self s) /\
  score (self (painted s)) = score (self s) /\
  i (self (painted s)) = i (self s) /\
  obstacle_manager (self (painted s)) = obstacle_manager (self s) /\
  blue_ball (self (painted s)) = blue_ball (self s) /\
  red_ball (self (painted s)) = red_ball (self s).
Proof. destruct s as [g w]; destruct g; repeat split. Qed.

Lemma counted_fields s :
  config_of (self (counted s)) = config_of (self s) /\
  score (self (counted s)) = score (self s) /\
  i (self (counted s)) = (i (self s) + 1) mod NEW_OBS_INTERVAL /\
  obstacle_manager (self (counted s)) = obstacle_manager (self s) /\
  blue_ball (self (counted s)) = blue_ball (self s) /\
  red_ball (self (counted s)) = red_ball (self s).
Proof. destruct s as [g w]; destruct g; repeat split. Qed.

(** *** The outcomes of a sub-step *)

Lemma retirement_due_unfold s :
  retirement_due s =
  match _move_balls s with
  | (Raised _, _) => false
  | (Returned _, s1) =>
      match oldest_out_of_frame (obstacle_manager (self (obstacles_moved s1))) with
      | Some out => out
      | None => false
      end
  end.
Proof.
  unfold retirement_due, bind.
  destruct (_move_balls s) as [[[]|e] s1]; [|reflexivity].
  unfold _move_obstacles, update, query, bind, get_self, obstacles_moved.
  cbn [self world].
  destruct (oldest_out_of_frame _); reflexivity.
Qed.

Lemma sub_step_cases k go rw s :
  (exists e, is_IndexError e = false /\ sub_step k (go, rw) s = (Raised e, s) /\
             retirement_due s = false) \/
  (exists f kb, ball_motion f /\
     let s2 := obstacles_moved (mkSt (with_balls f (self s)) (mkWorld (rng (world s)) kb)) in
     sub_step k (go, rw) s =
       match oldest_out_of_frame (obstacle_manager (self s2)) with
       | None => (Raised (IndexError "oldest_out_of_frame"), s2)
       | Some out =>
           let s5 := painted (after_spawn (mkSt (after_retirement (self s2) out) (world s2))) in
           match oldest_obstacle_set (obstacle_manager (self s5)) with
           | None => (Raised (IndexError "oldest_obstacle_set"), s5)
           | Some oldest =>
               (Returned (check_collisions (blue_ball (self s5)) (red_ball (self s5)) oldest
                            (go, if out then 1 else rw)),
                counted s5)
           end
       end /\
     retirement_due s =
       match oldest_out_of_frame (obstacle_manager (self s2)) with
       | Some out => out
       | None => false
       end).
Proof.
  rewrite sub_step_unfold, retirement_due_unfold.
  destruct (move_balls_cases s) as [(f & kb & Hf & E)|(e & He & E)]; rewrite E.
  - right. exists f, kb. split; [exact Hf|]. split; reflexivity.
  - left. exists e. repeat split; assumption.
Qed.

Lemma ball_hits_eq g oldest :
  oldest_obstacle_set (obstacle_manager g) = Some oldest ->
  ball_hits g = hits (blue_ball g) (red_ball g) oldest.
Proof. unfold ball_hits. now intros ->. Qed.

(** What a returning sub-step reports and leaves behind. *)
Lemma sub_step_returned k go rw s go' rw' s' :
  sub_step k (go, rw) s = (Returned (go', rw'), s') ->
  (exists f, ball_motion f /\
     blue_ball (self s') = f (blue_ball (self s)) /\
     red_ball (self s') = f (red_ball (self s))) /\
  config_of (self s') = config_of (self s) /\
  score (self s') = score (self s) + (if retirement_due s then 1 else 0) /\
  i (self s') = (i (self s) + 1) mod NEW_OBS_INTERVAL /\
  obstacle_sets (obstacle_manager (self s')) =
    (let sets := map (map move) (obstacle_sets (obstacle_manager (self s))) in
     if retirement_due s then tl sets else sets) ++
    (if i (self s) mod NEW_OBS_INTERVAL =? 0
     then [gate_obstacles
             (spawned_gate (obstacle_manager (self s)) (rng (world s)))]
     else []) /\
  go' = go || ball_hits (self s') /\
  rw' = (if ball_hits (self s') then 0 else if retirement_due s then 1 else rw).
Proof.
  intros H.
  destruct (sub_step_cases k go rw s) as [(e & _ & E & _)|(f & kb & Hf & E & Hdue)].
  { rewrite E in H. discriminate. }
  cbv zeta in E, Hdue. rewrite E in H. clear E. rewrite Hdue. clear Hdue.
  set (s1 := mkSt (with_balls f (self s)) (mkWorld (rng (world s)) kb)) in *.
  set (s2 := obstacles_moved s1) in *.
  destruct (oldest_out_of_frame (obstacle_manager (self s2))) as [out|]; [|discriminate].
  set (s3 := mkSt (after_retirement (self s2) out) (world s2)) in *.
  set (s5 := painted (after_spawn s3)) in *.
  destruct (oldest_obstacle_set (obstacle_manager (self s5))) as [oldest|] eqn:Hold;
    [|discriminate].
  rewrite check_collisions_spec in H.
  injection H as Hgo Hrw Hs'. subst s'.
  destruct (counted_fields s5) as (C1 & C2 & C3 & C4 & C5 & C6).
  destruct (painted_fields (after_spawn s3)) as (P1 & P2 & P3 & P4 & P5 & P6).
  destruct (after_spawn_fields s3) as (A1 & A2 & A3 & A4 & A5 & A6).
  destruct (after_retirement_fields (self s2) out) as (R1 & R2 & R3 & R4 & R5 & R6).
  destruct (obstacles_moved_fields s1) as (M1 & M2 & M3 & M4 & M5 & M6).
  destruct (with_balls_fields f (self s)) as (B1 & B2 & B3 & B4 & B5 & B6).
  fold s5 in P1, P2, P3, P4, P5, P6. fold s2 in M1, M2, M3, M4, M5, M6.
  change (self s3) with (after_retirement (self s2) out) in *.
  change (self s1) with (with_balls f (self s)) in *.
  change (world s3) with (world s2) in *.
  assert (Hhit : ball_hits (self (counted s5)) =
                 hits (blue_ball (self s5)) (red_ball (self s5)) oldest).
  { rewrite (@ball_hits_eq (self (counted s5)) oldest).
    - now rewrite C5, C6.
    - now rewrite C4. }
  repeat split.
  - exists f. split; [exact Hf|]. split; congruence.
  - congruence.
  - rewrite C2, P2, A2, R2, M2, B2. reflexivity.
  - rewrite C3, P3, A3, R3, M3, B3. reflexivity.
  - rewrite C4, P4, A4, R3, M3, B3.
    destruct (i (self s) mod NEW_OBS_INTERVAL =? 0).
    + rewrite new_obstacle_set_sets. cbn [obstacle_sets].
      rewrite R4, M4, B4.
      assert (rng (world s2) = rng (world s)) as -> by reflexivity.
      assert (spawned_gate (if out then remove_obstacle_set (move_all (obstacle_manager (self s)))
                            else move_all (obstacle_manager (self s))) (rng (world s)) =
              spawned_gate (obstacle_manager (self s)) (rng (world s))) as ->
        by (destruct out; reflexivity).
      destruct out; reflexivity.
    + rewrite R4, M4, B4, app_nil_r. destruct out; reflexivity.
  - rewrite Hhit. symmetry. exact Hgo.
  - rewrite Hhit. symmetry. exact Hrw.
Qed.

(** The state a sub-step leaves, and whether it returns, depend neither on
    the loop index nor on the locals carried into it. *)
Lemma sub_step_state k acc k' acc' s :
  snd (sub_step k acc s) = snd (sub_step k' acc' s) /\
  (forall e, fst (sub_step k acc s) = Raised e <-> fst (sub_step k' acc' s) = Raised e).
Proof.
  destruct acc as [go rw], acc' as [go2 rw2].
  rewrite !sub_step_unfold.
  destruct (_move_balls s) as [[[]|e] s1]; [|split; [reflexivity|tauto]].
  cbv zeta.
  destruct (oldest_out_of_frame _) as [out|]; [|split; [reflexivity|tauto]].
  destruct (oldest_obstacle_set _); [|split; [reflexivity|tauto]].
  split; [reflexivity|]. cbn [fst]. split; discriminate.
Qed.

(** *** The frame-skip loop and [step] *)

Lemma for_range_app ks1 ks2 acc s :
  for_range (ks1 ++ ks2) acc s =
  match for_range ks1 acc s with
  | (Returned acc', s') => for_range ks2 acc' s'
  | (Raised e, s') => (Raised e, s')
  end.
Proof.
  revert acc s. induction ks1 as [|k ks1 IH]; intros acc s; [reflexivity|].
  cbn [app for_range]. unfold bind.
  destruct (sub_step k acc s) as [[acc'|e] s']; [apply IH|reflexivity].
Qed.

Lemma capture_state_pure s : snd (capture_state s) = s.
Proof.
  destruct s as [g w].
  cbv [capture_state _get_coord_state _get_pixel_state query bind get_self ret raise
       self position x_span].
  destruct (capture g); [|reflexivity].
  destruct (String.eqb (state_rep g) "coord").
  - unfold position, x_span.
    destruct (oldest_obstacle_set (obstacle_manager g)) as [[|o1 [|o2 rest]]|];
      reflexivity.
  - destruct (String.eqb (state_rep g) "pixel"); reflexivity.
Qed.

Lemma step_unfold a s :
  step a s =
  match for_range (range (n_repeat_action (self s))) (false, 0)
                  (mkSt (set_action a (self s)) (world s)) with
  | (Raised e, s1) => (Raised e, s1)
  | (Returned (game_over, reward), s1) =>
      match capture_state s1 with
      | (Returned state, s2) => (Returned (state, reward, game_over), s2)
      | (Raised e, s2) => (Raised e, s2)
      end
  end.
Proof.
  unfold step. unfold bind at 1. cbn [update self world].
  unfold bind at 1. cbn [get_self self].
  assert (n_repeat_action (set_action a (self s)) = n_repeat_action (self s)) as ->
    by (destruct s as [g w]; destruct g; reflexivity).
  unfold bind at 1.
  destruct (for_range _ _ _) as [[[go rw]|e] s1]; [|reflexivity].
  unfold bind at 1. destruct (capture_state s1) as [[st|e] s2]; reflexivity.
Qed.

(** The loop does not look at the locals: the state it leaves is the same
    whether or not a collision has been recorded. *)
Lemma for_range_state_ignores_locals ks acc acc' s :
  snd (for_range ks acc s) = snd (for_range ks acc' s).
Proof.
  revert acc acc' s. induction ks as [|k ks IH]; intros acc acc' s; [reflexivity|].
  cbn [for_range]. unfold bind.
  destruct (sub_step_state k acc k acc' s) as [Hs Hr].
  destruct (sub_step k acc s) as [[acc1|e1] s1] eqn:E1,
           (sub_step k acc' s) as [[acc2|e2] s2] eqn:E2; cbn [fst snd] in *; subst s2.
  - apply IH.
  - destruct (Hr e2) as [_ Hr2]. specialize (Hr2 eq_refl). discriminate.
  - destruct (Hr e1) as [Hr1 _]. specialize (Hr1 eq_refl). discriminate.
  - reflexivity.
Qed.

(** Quiet sub-steps hand the locals on unchanged. *)
Lemma quiet_for_range ks go rw s :
  quiet ks s ->
  exists s', for_range ks (go, rw) s = (Returned (go, rw), s').
Proof.
  revert s. induction ks as [|k ks IH]; intros s H; [now exists s|].
  cbn [quiet] in H. destruct H as [Hdue H].
  destruct (sub_step k (false, 0) s) as [[acc0|e0] s1] eqn:E0; [|contradiction].
  destruct H as [Hhit Hq].
  destruct (sub_step_state k (go, rw) k (false, 0) s) as [Hs Hr].
  rewrite E0 in Hs, Hr. cbn [fst snd] in Hs, Hr.
  destruct (sub_step k (go, rw) s) as [[[go1 rw1]|e] s1'] eqn:E.
  - cbn [snd] in Hs. subst s1'.
    pose proof (sub_step_returned _ _ _ _ _ _ _ E) as (_ & _ & _ & _ & _ & Hgo & Hrw).
    rewrite Hhit in Hgo, Hrw. rewrite Hdue in Hrw. rewrite orb_false_r in Hgo. subst go1 rw1.
    cbn [for_range]. unfold bind. rewrite E. apply IH, Hq.
  - exfalso. destruct (Hr e) as [Hr' _]. specialize (Hr' eq_refl). discriminate.
Qed.

(** *** [reset], phase by phase *)

Lemma reset_unfold s :
  reset s = (fst (capture_state (reset_state s)), reset_state s).
Proof.
  rewrite <- (capture_state_pure (reset_state s)) at 2.
  rewrite <- surjective_pairing.
  unfold reset, reset_state, spawn_obstacle_set.
  destruct s as [g w]. destruct g.
  py_run.
  destruct (new_obstacle_set _ _) as [m r]. reflexivity.
Qed.

Lemma reset_state_fields s :
  config_of (self (reset_state s)) = config_of (self s) /\
  action (self (reset_state s)) = action (self s) /\
  score (self (reset_state s)) = 0 /\
  i (self (reset_state s)) = 1 /\
  obstacle_manager (self (reset_state s)) =
    fst (new_obstacle_set (ObstacleManager_init (random_obstacles (self s)))
                          (rng (world s))) /\
  blue_ball (self (reset_state s)) = init_blue_ball (draw_rects (self s)) /\
  red_ball (self (reset_state s)) = init_red_ball (draw_rects (self s)) /\
  screen (self (reset_state s)) = [].
Proof.
  unfold reset_state. destruct (new_obstacle_set _ _) as [m r]. repeat split.
Qed.

(** The coordinate observation of a freshly reset environment. *)
Lemma capture_after_reset s :
  fst (capture_state (reset_state s)) =
  Returned
    (if capture (self s) then
       if String.eqb (state_rep (self s)) "coord" then
         let gate := spawned_gate (ObstacleManager_init (random_obstacles (self s)))
                                  (rng (world s)) in
         Some (CoordState
                 ([BOARD_WIDTH / 2 - CIRCLE_RADIUS; BOARD_HEIGHT - DIST_TO_BOTTOM;
                   BOARD_WIDTH / 2 + CIRCLE_RADIUS; BOARD_HEIGHT - DIST_TO_BOTTOM] ++
                  box_coords (fst gate) ++
                  match snd gate with
                  | Some o2 => box_coords o2
                  | None => [0; 0; 0; 0]
                  end))
       else if String.eqb (state_rep (self s)) "pixel" then Some (PixelState [])
       else None
     else None).
Proof.
  unfold reset_state.
  pose proof (new_obstacle_set_sets (ObstacleManager_init (random_obstacles (self s)))
                (rng (world s))) as Hm.
  destruct (new_obstacle_set _ _) as [m r]. cbn [fst] in Hm. subst m.
  cbv [capture_state _get_coord_state _get_pixel_state query bind get_self ret raise
       self position x_span oldest_obstacle_set capture state_rep obstacle_manager
       obstacle_sets ObstacleManager_init app hd_error blue_ball red_ball screen
       init_blue_ball init_red_ball ball_x ball_y box_coords fst snd].
  destruct s as [g w]. destruct g as [gm gc gs gctl ga gscr gsc gi gf1 gf2 gf3 gos gn gr gom gd gb grd gv].
  destruct gc; [|reflexivity].
  destruct (String.eqb gs "coord").
  - destruct (spawned_gate _ _) as [o1 [o2|]]; reflexivity.
  - destruct (String.eqb gs "pixel"); reflexivity.
Qed.

(* ------------------------------------------------------------------ *)
(** ** Score and reward of one tick *)

(** The score never decreases in a sub-step, whether it returns or raises. *)
Lemma sub_step_score_mono k acc s :
  score (self s) <= score (self (snd (sub_step k acc s))).
Proof.
  destruct acc as [go rw].
  destruct (sub_step_cases k go rw s) as [(e & _ & E & _)|(f & kb & Hf & E & _)].
  { rewrite E. cbn [snd]. lia. }
  cbv zeta in E. rewrite E. clear E.
  set (s1 := mkSt (with_balls f (self s)) (mkWorld (rng (world s)) kb)) in *.
  set (s2 := obstacles_moved s1) in *.
  destruct (with_balls_fields f (self s)) as (_ & B2 & _).
  destruct (obstacles_moved_fields s1) as (_ & M2 & _).
  fold s2 in M2. change (self s1) with (with_balls f (self s)) in *.
  destruct (oldest_out_of_frame (obstacle_manager (self s2))) as [out|]; cbn [snd].
  2: { rewrite M2, B2. lia. }
  set (s3 := mkSt (after_retirement (self s2) out) (world s2)) in *.
  set (s5 := painted (after_spawn s3)) in *.
  destruct (counted_fields s5) as (_ & C2 & _).
  destruct (painted_fields (after_spawn s3)) as (_ & P2 & _).
  destruct (after_spawn_fields s3) as (_ & A2 & _).
  destruct (after_retirement_fields (self s2) out) as (_ & R2 & _).
  fold s5 in P2. change (self s3) with (after_retirement (self s2) out) in *.
  destruct (oldest_obstacle_set (obstacle_manager (self s5))); cbn [snd].
  - rewrite C2, P2, A2, R2, M2, B2. destruct out; lia.
  - rewrite P2, A2, R2, M2, B2. destruct out; lia.
Qed.

(** Nor does it decrease over the sub-steps of a call, or in [step]. *)
Lemma for_range_score_mono ks acc s :
  score (self s) <= score (self (snd (for_range ks acc s))).
Proof.
  revert acc s. induction ks as [|k ks IH]; intros acc s; [cbn; lia|].
  cbn [for_range]. unfold bind.
  pose proof (sub_step_score_mono k acc s) as H1.
  destruct (sub_step k acc s) as [[acc'|e] s1]; cbn [snd] in *; [|exact H1].
  specialize (IH acc' s1). lia.
Qed.

Lemma step_score_mono a s :
  score (self s) <= score (self (snd (step a s))).
Proof.
  rewrite step_unfold.
  pose proof (for_range_score_mono (range (n_repeat_action (self s))) (false, 0)
                (mkSt (set_action a (self s)) (world s))) as H.
  assert (Hs : score (set_action a (self s)) = score (self s))
    by (destruct s as [g w]; destruct g; reflexivity).
  cbn [self] in H. rewrite Hs in H.
  destruct (for_range _ _ _) as [[[go rw]|e] s1]; cbn [snd] in *; [|exact H].
  pose proof (capture_state_pure s1) as Hp.
  destruct (capture_state s1) as [[st|e] s2]; cbn [snd] in *; subst s2; exact H.
Qed.

(** C4 (as amended).  The score never decreases in a sub-step.  On every
    sub-step that returns, the score grows by exactly 1 if and only if the
    oldest set is retired on that sub-step (the head of the moved sets is
    dropped); a collision of either ball with an obstacle of the oldest live
    set, the only set tested, sets [game_over] and forces the reward to 0,
    also on a retirement tick; a retirement without collision makes the
    reward 1; and a tick with neither leaves the reward as the earlier
    sub-steps of the same call left it, which is 0 on the first sub-step of a
    call. *)
Theorem tick_score_and_reward k go rw s :
  score (self s) <= score (self (snd (sub_step k (go, rw) s))) /\
  forall go' rw' s',
    sub_step k (go, rw) s = (Returned (go', rw'), s') ->
    (score (self s') = score (self s) + 1 <-> retirement_due s = true) /\
    (score (self s') = score (self s) <-> retirement_due s = false) /\
    (exists spawned,
       obstacle_sets (obstacle_manager (self s')) =
         (let sets := map (map move) (obstacle_sets (obstacle_manager (self s))) in
          if retirement_due s then tl sets else sets) ++ spawned) /\
    go' = (go || ball_hits (self s')) /\
    (ball_hits (self s') = true -> rw' = 0 /\ go' = true) /\
    (ball_hits (self s') = false -> retirement_due s = true -> rw' = 1) /\
    (ball_hits (self s') = false -> retirement_due s = false -> rw' = rw) /\
    (rw = 0 ->
     rw' = if ball_hits (self s') then 0 else if retirement_due s then 1 else 0).
Proof.
  split; [apply sub_step_score_mono|].
  intros go' rw' s' H.
  destruct (sub_step_returned _ _ _ _ _ _ _ H)
    as (_ & _ & Hscore & _ & Hsets & Hgo & Hrw).
  split; [|split; [|split; [|split; [|split; [|split; [|split]]]]]].
  - split; intros E.
    + destruct (retirement_due s); [reflexivity|lia].
    + rewrite E in Hscore. exact Hscore.
  - split; intros E.
    + destruct (retirement_due s); [lia|reflexivity].
    + rewrite E in Hscore. lia.
  - eexists. exact Hsets.
  - exact Hgo.
  - intros Hhit. rewrite Hhit in Hrw, Hgo. split; [exact Hrw|].
    rewrite Hgo. apply orb_true_r.
  - intros Hhit Hdue. rewrite Hhit, Hdue in Hrw. exact Hrw.
  - intros Hhit Hdue. rewrite Hhit, Hdue in Hrw. exact Hrw.
  - intros ->. exact Hrw.
Qed.

(* ------------------------------------------------------------------ *)
(** ** The reward of a frame-skipped step *)

(** C2 (as amended).  The reward is carried from sub-step to sub-step:
    when some sub-step of a call retires the oldest set without a collision
    and the sub-steps after it neither retire a set nor detect a collision,
    the loop ends with reward 1 and [step] returns 1, whatever the position
    of the retiring sub-step in the call. *)
Theorem earlier_retirement_is_reported a s ks1 k ks2 go rw s1 go1 rw1 s2 :
  range (n_repeat_action (self s)) = ks1 ++ k :: ks2 ->
  for_range ks1 (false, 0) (mkSt (set_action a (self s)) (world s)) =
    (Returned (go, rw), s1) ->
  retirement_due s1 = true ->
  sub_step k (go, rw) s1 = (Returned (go1, rw1), s2) ->
  ball_hits (self s2) = false ->
  quiet ks2 s2 ->
  rw1 = 1 /\ go1 = go /\
  exists s3,
    for_range (range (n_repeat_action (self s))) (false, 0)
              (mkSt (set_action a (self s)) (world s)) = (Returned (go, 1), s3) /\
    step a s =
      match capture_state s3 with
      | (Returned state, s4) => (Returned (state, 1, go), s4)
      | (Raised e, s4) => (Raised e, s4)
      end.
Proof.
  intros Hrange Hpre Hdue Hk Hhit Hq.
  destruct (sub_step_returned _ _ _ _ _ _ _ Hk) as (_ & _ & _ & _ & _ & Hgo & Hrw).
  rewrite Hhit in Hgo, Hrw. rewrite Hdue in Hrw. rewrite orb_false_r in Hgo.
  subst go1 rw1. split; [reflexivity|]. split; [reflexivity|].
  destruct (quiet_for_range ks2 go 1 s2 Hq) as [s3 Hs3].
  exists s3.
  assert (Hloop : for_range (range (n_repeat_action (self s))) (false, 0)
                    (mkSt (set_action a (self s)) (world s)) = (Returned (go, 1), s3)).
  { rewrite Hrange, for_range_app, Hpre. cbn [for_range]. unfold bind. rewrite Hk.
    exact Hs3. }
  split; [exact Hloop|].
  rewrite step_unfold, Hloop. reflexivity.
Qed.

(* ------------------------------------------------------------------ *)
(** ** The two balls *)








(* ------------------------------------------------------------------ *)
(** ** Liveness of the obstacle manager *)

Lemma stays_in_frame_mono n m set :
  m <= n -> stays_in_frame n set -> stays_in_frame m set.
Proof.
  intros Hle (o & Hin & Ho). exists o. split; [exact Hin|].
  intros a Ha. apply Ho. lia.
Qed.

Lemma stays_in_frame_move n set :
  stays_in_frame n set -> stays_in_frame (n - 1) (map move set).
Proof.
  intros (o & Hin & Ho). exists (move o). split; [now apply in_map|].
  intros a Ha. unfold move, get_top in *. cbn [ob_y].
  specialize (Ho (a + 1)). lia.
Qed.

Lemma stays_in_frame_not_out n set :
  1 <= n -> stays_in_frame n set ->
  forallb (fun o => BOARD_HEIGHT <? get_top o) set = false.
Proof.
  intros Hn (o & Hin & Ho).
  destruct (forallb _ set) eqn:E; [|reflexivity].
  rewrite forallb_forall in E. specialize (E o Hin). specialize (Ho 0).
  apply Z.ltb_lt in E. lia.
Qed.

Lemma spawned_gate_stays m r :
  gates_outlast_interval ->
  stays_in_frame NEW_OBS_INTERVAL (gate_obstacles (spawned_gate m r)).
Proof.
  intros [Hfixed Hrandom]. unfold spawned_gate.
  destruct (om_random m); [apply Hrandom|exact Hfixed].
Qed.

Lemma cadence_live g : cadence g -> obstacle_sets (obstacle_manager g) <> [].
Proof.
  intros (_ & older & newest & E & _). rewrite E.
  destruct older; discriminate.
Qed.

(** A sub-step keeps the cadence and finds a set at both queries. *)
Lemma sub_step_cadence k acc s :
  gates_outlast_interval ->
  cadence (self s) ->
  cadence (self (snd (sub_step k acc s))) /\
  (forall e, fst (sub_step k acc s) = Raised e -> queries_empty_manager e = false).
Proof.
  intros Hgates Hcad. destruct acc as [go rw].
  destruct (sub_step_cases k go rw s) as [(e & He & E & _)|(f & kb & Hf & E & _)].
  { rewrite E. cbn [fst snd]. split; [exact Hcad|].
    intros e' [= <-]. destruct e; [reflexivity|discriminate|reflexivity]. }
  cbv zeta in E. rewrite E. clear E.
  destruct Hcad as (Hi & older & newest & Hsets & Hstay).
  set (s1 := mkSt (with_balls f (self s)) (mkWorld (rng (world s)) kb)) in *.
  set (s2 := obstacles_moved s1) in *.
  destruct (with_balls_fields f (self s)) as (_ & _ & B3 & B4 & _ & _).
  destruct (obstacles_moved_fields s1) as (_ & _ & M3 & M4 & _ & _).
  fold s2 in M3, M4. change (self s1) with (with_balls f (self s)) in *.
  rewrite B3 in M3. rewrite B4 in M4.
  assert (Hsets2 : obstacle_sets (obstacle_manager (self s2)) =
                   map (map move) older ++ [map move newest]).
  { rewrite M4. unfold move_all. cbn [obstacle_sets]. rewrite Hsets, map_app. reflexivity. }
  pose proof (stays_in_frame_move _ _ Hstay) as Hstay2.
  unfold oldest_out_of_frame. 
  destruct (obstacle_sets (obstacle_manager (self s2))) as [|oldest rest] eqn:Esets2.
  { destruct (map (map move) older); discriminate. }
  cbv beta iota.
  set (out := forallb (fun o => BOARD_HEIGHT <? get_top o) oldest).
  set (s3 := mkSt (after_retirement (self s2) out) (world s2)) in *.
  set (s5 := painted (after_spawn s3)) in *.
  destruct (counted_fields s5) as (_ & _ & C3 & C4 & _ & _).
  destruct (painted_fields (after_spawn s3)) as (_ & _ & P3 & P4 & _ & _).
  destruct (after_spawn_fields s3) as (_ & _ & A3 & A4 & _ & _).
  destruct (after_retirement_fields (self s2) out) as (_ & _ & R3 & R4 & _ & _).
  fold s5 in P3, P4. change (self s3) with (after_retirement (self s2) out) in *.
  change (world s3) with (world s2) in *.
  rewrite R3, M3 in A3, A4. rewrite A3 in P3. rewrite P3 in C3.
  rewrite R4 in A4. rewrite A4 in P4. rewrite P4 in C4.
  assert (Hlive : exists older5 newest5,
            obstacle_sets (obstacle_manager (self s5)) = older5 ++ [newest5] /\
            stays_in_frame (spawn_margin ((i (self s) + 1) mod NEW_OBS_INTERVAL)) newest5).
  { rewrite P4.
    destruct (Z.eqb_spec (i (self s) mod NEW_OBS_INTERVAL) 0) as [Hz|Hnz].
    - rewrite new_obstacle_set_sets. cbn [obstacle_sets].
      eexists. eexists. split; [reflexivity|].
      rewrite Z.mod_small in Hz by exact Hi. rewrite Hz.
      apply spawned_gate_stays, Hgates.
    - rewrite Z.mod_small in Hnz by exact Hi.
      assert (Hmargin : spawn_margin (i (self s)) = NEW_OBS_INTERVAL + 1 - i (self s)).
      { unfold spawn_margin. destruct (Z.eqb_spec (i (self s)) 0); [contradiction|reflexivity]. }
      rewrite Hmargin in Hstay2.
      assert (Hnewest : stays_in_frame
                (spawn_margin ((i (self s) + 1) mod NEW_OBS_INTERVAL)) (map move newest)).
      { apply stays_in_frame_mono with (2 := Hstay2).
        unfold spawn_margin, NEW_OBS_INTERVAL in *.
        destruct (Z.eqb_spec (i (self s)) 139) as [->|Hne]; [cbn; lia|].
        rewrite Z.mod_small by lia.
        destruct (Z.eqb_spec (i (self s) + 1) 0); lia. }
      destruct (map (map move) older) as [|o1 older'] eqn:Eolder.
      + cbn [app] in Hsets2. injection Hsets2 as -> ->.
        assert (Hout : out = false).
        { apply stays_in_frame_not_out with (2 := Hstay2). unfold NEW_OBS_INTERVAL in *. lia. }
        rewrite Hout. rewrite Esets2.
        exists [], (map move newest). split; [reflexivity|exact Hnewest].
      + cbn [app] in Hsets2. injection Hsets2 as -> ->.
        destruct out.
        * unfold remove_obstacle_set. cbn [obstacle_sets]. rewrite Esets2. cbn [tl].
          exists older', (map move newest). split; [reflexivity|exact Hnewest].
        * rewrite Esets2.
          exists (o1 :: older'), (map move newest). split; [reflexivity|exact Hnewest]. }
  destruct Hlive as (older5 & newest5 & Hsets5 & Hstay5).
  unfold oldest_obstacle_set. rewrite Hsets5.
  destruct (older5 ++ [newest5]) as [|o rest5] eqn:E5.
  { destruct older5; discriminate. }
  cbn [hd_error fst snd]. split.
  - split; [rewrite C3; apply Z.mod_pos_bound; reflexivity|].
    exists older5, newest5.
    destruct (counted_fields s5) as (_ & _ & _ & C4' & _ & _).
    rewrite C4', Hsets5, C3, E5. split; [reflexivity|exact Hstay5].
  - intros e [=].
Qed.

Lemma fresh_manager_cadence g random r :
  gates_outlast_interval ->
  i g = 1 ->
  obstacle_manager g = fst (new_obstacle_set (ObstacleManager_init random) r) ->
  cadence g.
Proof.
  intros Hgates Hi Hm. unfold cadence. rewrite Hi, Hm, new_obstacle_set_sets.
  split; [unfold NEW_OBS_INTERVAL; lia|].
  exists [], (gate_obstacles (spawned_gate (ObstacleManager_init random) r)).
  split; [reflexivity|]. apply spawned_gate_stays, Hgates.
Qed.

Lemma for_range_cadence ks acc s :
  gates_outlast_interval ->
  cadence (self s) ->
  cadence (self (snd (for_range ks acc s))) /\
  (forall e, fst (for_range ks acc s) = Raised e -> queries_empty_manager e = false).
Proof.
  intros Hgates. revert acc s.
  induction ks as [|k ks IH]; intros acc s Hcad.
  - cbn. split; [exact Hcad|discriminate].
  - cbn [for_range]. unfold bind.
    destruct (sub_step_cadence k acc s Hgates Hcad) as [Hcad' Herr].
    destruct (sub_step k acc s) as [[acc'|e] s1]; cbn [fst snd] in *.
    + apply IH, Hcad'.
    + split; [exact Hcad'|exact Herr].
Qed.

Lemma capture_state_live s :
  obstacle_sets (obstacle_manager (self s)) <> [] ->
  forall e, fst (capture_state s) = Raised e -> queries_empty_manager e = false.
Proof.
  intros Hlive e. destruct s as [g w].
  cbv [capture_state _get_coord_state _get_pixel_state query bind get_self ret raise
       self position x_span oldest_obstacle_set].
  cbn [self] in Hlive.
  destruct (capture g); [|discriminate].
  destruct (String.eqb (state_rep g) "coord").
  - destruct (obstacle_sets (obstacle_manager g)) as [|[|o1 [|o2 rest]] more];
      [contradiction| | |]; cbn [hd_error fst]; [|discriminate..].
    intros [= <-]. reflexivity.
  - destruct (String.eqb (state_rep g) "pixel"); discriminate.
Qed.

(** [step] stays within the reachable states. *)
Lemma for_range_reachable ks acc s :
  reachable s -> reachable (snd (for_range ks acc s)).
Proof.
  revert acc s. induction ks as [|k ks IH]; intros acc s H; [exact H|].
  cbn [for_range]. unfold bind.
  pose proof (reach_sub_step s k acc H) as H1.
  destruct (sub_step k acc s) as [[acc'|e] s1]; cbn [snd] in *; [now apply IH|exact H1].
Qed.

Lemma step_reachable a s : reachable s -> reachable (snd (step a s)).
Proof.
  intros H. rewrite step_unfold.
  pose proof (for_range_reachable (range (n_repeat_action (self s))) (false, 0) _
                (reach_action s a H)) as H1.
  cbn [update snd] in H1.
  destruct (for_range _ _ _) as [[[go rw]|e] s1]; cbn [snd] in *; [|exact H1].
  pose proof (capture_state_pure s1) as Hp.
  destruct (capture_state s1) as [[st|e] s2]; cbn [snd] in *; subst s2; exact H1.
Qed.

Lemma step_cadence a s :
  gates_outlast_interval ->
  cadence (self s) ->
  cadence (self (snd (step a s))) /\
  (forall e, fst (step a s) = Raised e -> queries_empty_manager e = false).
Proof.
  intros Hgates Hcad. rewrite step_unfold.
  assert (Hcad0 : cadence (self (mkSt (set_action a (self s)) (world s)))).
  { destruct s as [g w]. destruct g. exact Hcad. }
  destruct (for_range_cadence (range (n_repeat_action (self s))) (false, 0) _
              Hgates Hcad0) as [Hcad1 Herr].
  destruct (for_range _ _ _) as [[[go rw]|e1] s1]; cbn [fst snd] in *.
  - pose proof (capture_state_live s1 (cadence_live _ Hcad1)) as Hcap.
    pose proof (capture_state_pure s1) as Hp.
    destruct (capture_state s1) as [[st|e2] s2]; cbn [fst snd] in *; subst s2.
    + split; [exact Hcad1|discriminate].
    + split; [exact Hcad1|]. intros e [= <-]. now apply Hcap.
  - split; [exact Hcad1|]. intros e [= <-]. now apply Herr.
Qed.

Lemma game_loop_while_cadence fuel polls s :
  gates_outlast_interval ->
  cadence (self s) ->
  cadence (self (snd (game_loop_while fuel polls s))) /\
  (forall e, fst (game_loop_while fuel polls s) = Raised e ->
             queries_empty_manager e = false).
Proof.
  intros Hgates. revert polls s.
  induction fuel as [|fuel IH]; intros polls s Hcad.
  { cbn. split; [exact Hcad|discriminate]. }
  cbn [game_loop_while]. unfold bind, render, ret.
  destruct (step_cadence None s Hgates Hcad) as [Hcad1 Herr].
  destruct (step None s) as [[[[obs rw] go]|e1] s1]; cbn [fst snd] in *.
  - destruct (go || window_closed (hd [] polls)).
    + split; [exact Hcad1|discriminate].
    + apply IH, Hcad1.
  - split; [exact Hcad1|]. intros e [= <-]. now apply Herr.
Qed.

(** C6 (as amended).  [step] itself tests nothing before it asks for the
    oldest set; it relies on the spawn cadence: the counter is a residue and
    the newest set outlasts the moves that precede the next spawn.  When
    every spawned gate needs at least [NEW_OBS_INTERVAL] moves to leave the
    frame, [man_init] and [reset] establish the cadence; a state that keeps
    it has a live set; and from such a state neither a sub-step (at the
    retirement test and at the collision check) nor [step] as a whole (the
    observation included) queries an empty manager, and both keep the
    cadence.  [game_loop] assigns the counter: entered where the counter is
    1 it keeps the cadence, and where its entry state keeps the cadence no
    pass of its loop queries an empty manager. *)
Theorem step_finds_a_live_set :
  gates_outlast_interval ->
  (forall m c cfg w, cadence (self (man_init (__init__ m c) cfg w))) /\
  (forall s, cadence (self (snd (reset s)))) /\
  (forall s, cadence (self s) ->
     obstacle_sets (obstacle_manager (self s)) <> [] /\
     (forall k acc,
        cadence (self (snd (sub_step k acc s))) /\
        forall e, fst (sub_step k acc s) = Raised e -> queries_empty_manager e = false) /\
     (forall a,
        cadence (self (snd (step a s))) /\
        forall e, fst (step a s) = Raised e -> queries_empty_manager e = false)) /\
  (forall s, cadence (self s) -> i (self s) = 1 -> cadence (self (game_loop_entry s))) /\
  (forall s fuel polls,
     cadence (self (game_loop_entry s)) ->
     cadence (self (snd (game_loop_while fuel polls (game_loop_entry s)))) /\
     forall e, fst (game_loop_while fuel polls (game_loop_entry s)) = Raised e ->
               queries_empty_manager e = false).
Proof.
  intros Hgates. split; [|split; [|split; [|split]]].
  - intros m c cfg w.
    apply fresh_manager_cadence with (random := cfg_random_obstacles cfg) (r := rng w);
      [exact Hgates| |]; unfold man_init; destruct (new_obstacle_set _ _); reflexivity.
  - intros s. rewrite reset_unfold. cbn [snd].
    destruct (reset_state_fields s) as (_ & _ & _ & Hi & Hm & _).
    now apply fresh_manager_cadence with (2 := Hi) (3 := Hm).
  - intros s Hcad. split; [apply cadence_live, Hcad|]. split.
    + intros k acc. now apply sub_step_cadence.
    + intros a. now apply step_cadence.
  - intros s Hcad Hi. destruct s as [g w]. destruct g. cbn in Hi. subst. exact Hcad.
  - intros s fuel polls Hcad. now apply game_loop_while_cadence.
Qed.

(* ------------------------------------------------------------------ *)
(** ** Invalid control modes *)

Lemma move_balls_invalid s :
  valid_mode (mode (self s)) = false ->
  _move_balls s = (Raised (invalid_mode_error (mode (self s))), s).
Proof.
  destruct s as [g w]. unfold valid_mode. cbn [self].
  intros H. apply orb_false_iff in H as [H Hai]. apply orb_false_iff in H as [Hman Hcontr].
  unfold _move_balls, bind, get_self. cbn [self]. rewrite Hman, Hcontr, Hai. reflexivity.
Qed.

Lemma range_pos n : 0 < n -> exists ks, range n = 0 :: ks.
Proof.
  intros H. unfold range.
  destruct (Z.to_nat n) as [|m] eqn:E; [lia|].
  cbn [seq map]. now eexists.
Qed.

Lemma step_invalid_mode a s :
  valid_mode (mode (self s)) = false ->
  0 < n_repeat_action (self s) ->
  step a s = (Raised (invalid_mode_error (mode (self s))),
              mkSt (set_action a (self s)) (world s)).
Proof.
  intros Hmode Hn. rewrite step_unfold.
  destruct (range_pos _ Hn) as [ks ->].
  cbn [for_range]. unfold bind. rewrite sub_step_unfold.
  assert (Hm : mode (set_action a (self s)) = mode (self s))
    by (destruct s as [g w]; destruct g; reflexivity).
  rewrite move_balls_invalid by (cbn [self]; now rewrite Hm).
  cbn [self]. now rewrite Hm.
Qed.

(** C7 (as amended).  Constructing the environment with a control mode that
    is none of ["man"], ["contr"] and ["ai"] raises nothing: [__init__] and
    [man_init] store the mode as given, and a [reset] returns.  The error is
    the [ValueError] that [_move_balls] raises in the first sub-step of the
    first [step] call (for a frame-skip count of at least 1), before any ball
    or obstacle has moved. *)
Theorem invalid_mode_surfaces_at_first_step m0 c0 cfg w a :
  valid_mode (cfg_mode cfg) = false ->
  0 < cfg_n_repeat_action cfg ->
  let s := man_init (__init__ m0 c0) cfg w in
  c_mode (__init__ m0 c0) = m0 /\
  mode (self s) = cfg_mode cfg /\
  (exists o, fst (reset s) = Returned o) /\
  step a s = (Raised (invalid_mode_error (cfg_mode cfg)),
              mkSt (set_action a (self s)) (world s)).
Proof.
  intros Hmode Hn s.
  assert (Hs : mode (self s) = cfg_mode cfg /\
               n_repeat_action (self s) = cfg_n_repeat_action cfg).
  { subst s. unfold man_init. destruct (new_obstacle_set _ _). split; reflexivity. }
  destruct Hs as [Hm Hr].
  split; [reflexivity|]. split; [exact Hm|]. split.
  - rewrite reset_unfold. cbn [fst]. rewrite capture_after_reset. now eexists.
  - rewrite <- Hm. apply step_invalid_mode; [now rewrite Hm|now rewrite Hr].
Qed.

(* ------------------------------------------------------------------ *)
(** ** [reset] *)

(** C8.  After [reset] the score is 0, the spawn counter is back at its
    initial value 1, both balls are the ones [_init_balls] creates (blue at
    phase [pi], red at phase 0), the manager is a new one holding exactly one
    freshly spawned set, and [reset] returns the observation of that state:
    the coordinate vector or the (blank) frame according to [state_rep], and
    nothing when capture is disabled. *)
Theorem reset_reinitializes s :
  let g' := self (snd (reset s)) in
  let gate := spawned_gate (ObstacleManager_init (random_obstacles (self s)))
                           (rng (world s)) in
  score g' = 0 /\
  i g' = 1 /\
  blue_ball g' = init_blue_ball (draw_rects (self s)) /\
  red_ball g' = init_red_ball (draw_rects (self s)) /\
  theta (blue_ball g') = angle_pi /\
  theta (red_ball g') = angle_zero /\
  obstacle_manager g' =
    mkManager (random_obstacles (self s)) [gate_obstacles gate] /\
  screen g' = [] /\
  fst (reset s) =
    Returned
      (if capture (self s) then
         if String.eqb (state_rep (self s)) "coord" then
           Some (CoordState
                   ([BOARD_WIDTH / 2 - CIRCLE_RADIUS; BOARD_HEIGHT - DIST_TO_BOTTOM;
                     BOARD_WIDTH / 2 + CIRCLE_RADIUS; BOARD_HEIGHT - DIST_TO_BOTTOM] ++
                    box_coords (fst gate) ++
                    match snd gate with
                    | Some o2 => box_coords o2
                    | None => [0; 0; 0; 0]
                    end))
         else if String.eqb (state_rep (self s)) "pixel" then Some (PixelState [])
         else None
       else None).
Proof.
  cbv zeta. rewrite reset_unfold. cbn [fst snd].
  destruct (reset_state_fields s) as (_ & _ & Hsc & Hi & Hm & Hb & Hr & Hscr).
  rewrite Hsc, Hi, Hm, Hb, Hr, Hscr, new_obstacle_set_sets, capture_after_reset.
  repeat split.
Qed.

(** C10.  [reset] leaves the attributes set by [man_init] as they are:
    [state_rep], [mode], [capture], [n_repeat_action], [random_obstacles],
    [draw_rects] and [visualize], and with them the controller, the stored
    action and the observation space. *)
Theorem reset_keeps_configuration s :
  let g := self s in
  let g' := self (snd (reset s)) in
  state_rep g' = state_rep g /\
  mode g' = mode g /\
  capture g' = capture g /\
  n_repeat_action g' = n_repeat_action g /\
  random_obstacles g' = random_obstacles g /\
  draw_rects g' = draw_rects g /\
  visualize g' = visualize g /\
  controller g' = controller g /\
  action g' = action g /\
  observation_space g' = observation_space g.
Proof.
  cbv zeta. rewrite reset_unfold. cbn [snd].
  unfold reset_state. destruct (new_obstacle_set _ _) as [m r].
  repeat split.
Qed.

(* ------------------------------------------------------------------ *)
(** ** The coordinate observation *)

(** C9.  With a non-empty oldest set, [_get_coord_state] returns twelve
    numbers: the position of the blue ball, the position of the red ball,
    (top, bottom, left, right) of the first obstacle of the oldest set, and
    the same for its second obstacle, or four zeros when the set has one
    obstacle only; the state is left as it was. *)
Theorem coord_state_layout s o1 others more :
  obstacle_sets (obstacle_manager (self s)) = (o1 :: others) :: more ->
  let coords :=
    [fst (position (blue_ball (self s))); snd (position (blue_ball (self s)));
     fst (position (red_ball (self s))); snd (position (red_ball (self s)))] ++
    [get_top o1; get_bottom o1; fst (x_span o1); snd (x_span o1)] ++
    match others with
    | [] => [0; 0; 0; 0]
    | o2 :: _ => [get_top o2; get_bottom o2; fst (x_span o2); snd (x_span o2)]
    end in
  _get_coord_state s = (Returned (CoordState coords), s) /\
  List.length coords = 12%nat.
Proof.
  intros Hsets. destruct s as [g w]. cbn [self] in *.
  cbv [_get_coord_state query bind get_self ret raise self position x_span
       oldest_obstacle_set].
  rewrite Hsets. cbn [hd_error].
  destruct others as [|o2 rest]; split; reflexivity.
Qed.

(* ------------------------------------------------------------------ *)
(** ** Reproducibility *)











End Properties.

(* ------------------------------------------------------------------ *)
(** ** Further properties of the step engine *)

Section MoreProperties.

Context {backend : Backend}.

(** *** What a call reports, from what its sub-steps did *)

Lemma for_range_events ks go rw s go' rw' s' :
  for_range ks (go, rw) s = (Returned (go', rw'), s') ->
  (go', rw') = fold_left settle (tick_events ks s) (go, rw) /\
  List.length (tick_events ks s) = List.length ks /\
  score (self s') =
    score (self s) + Z.of_nat (List.length (filter fst (tick_events ks s))) /\
  i (self s') = match ks with
                | [] => i (self s)
                | _ :: _ => (i (self s) + Z.of_nat (List.length ks)) mod NEW_OBS_INTERVAL
                end.
Proof.
  revert go rw s. induction ks as [|k ks IH]; intros go rw s H.
  - cbn in H. injection H as <- <- <-. cbn. repeat split; lia.
  - cbn [for_range] in H. unfold bind in H.
    destruct (sub_step k (go, rw) s) as [[[go1 rw1]|e] s1] eqn:E; [|discriminate].
    destruct (sub_step_state k (go, rw) k (false, 0) s) as [Hs Hr].
    rewrite E in Hs, Hr. cbn [fst snd] in Hs, Hr.
    cbn [tick_events].
    destruct (sub_step k (false, 0) s) as [[acc0|e0] s0] eqn:E0; cbn [fst snd] in Hs, Hr.
    2: { destruct (Hr e0) as [_ Hr2]. specialize (Hr2 eq_refl). discriminate. }
    subst s0.
    destruct (sub_step_returned _ _ _ _ _ _ _ E) as (_ & _ & Hsc & Hi & _ & Hgo & Hrw).
    destruct (IH _ _ _ H) as (Hfold & Hlen & Hscore & Hcount).
    cbn [fold_left settle List.length filter fst].
    rewrite <- Hgo, <- Hrw. split; [exact Hfold|]. split; [now rewrite Hlen|]. split.
    + rewrite Hscore, Hsc. destruct (retirement_due s); cbn [List.length]; lia.
    + rewrite Hcount. destruct ks as [|k2 ks2]; [rewrite Hi; reflexivity|].
      rewrite Hi. cbn [List.length]. rewrite Z.add_mod_idemp_l by (unfold NEW_OBS_INTERVAL; lia).
      f_equal. lia.
Qed.

Lemma settle_done evs go rw :
  fst (fold_left settle evs (go, rw)) = go || existsb snd evs.
Proof.
  revert go rw. induction evs as [|[retired hit] evs IH]; intros go rw.
  - cbn. now rewrite orb_false_r.
  - cbn [fold_left settle existsb snd]. rewrite IH. now rewrite orb_assoc.
Qed.

Lemma settle_reward_range evs go rw :
  rw = 0 \/ rw = 1 ->
  snd (fold_left settle evs (go, rw)) = 0 \/ snd (fold_left settle evs (go, rw)) = 1.
Proof.
  revert go rw. induction evs as [|[retired hit] evs IH]; intros go rw H; [exact H|].
  cbn [fold_left settle]. apply IH.
  destruct hit; [now left|]. destruct retired; [now right|exact H].
Qed.

Lemma with_action_fields a s :
  config_of (self (with_action a s)) = config_of (self s) /\
  score (self (with_action a s)) = score (self s) /\
  i (self (with_action a s)) = i (self s) /\
  obstacle_manager (self (with_action a s)) = obstacle_manager (self s) /\
  blue_ball (self (with_action a s)) = blue_ball (self s) /\
  red_ball (self (with_action a s)) = red_ball (self s) /\
  action (self (with_action a s)) = a /\
  world (with_action a s) = world s.
Proof. destruct s as [g w]; destruct g; repeat split. Qed.

(** [step] returns what the loop computed, in the state the loop left. *)
Lemma step_returned a s obs reward done s' :
  step a s = (Returned (obs, reward, done), s') ->
  for_range (range (n_repeat_action (self s))) (false, 0) (with_action a s) =
    (Returned (done, reward), s') /\
  fst (capture_state s') = Returned obs.
Proof.
  rewrite step_unfold. fold (with_action a s). intros H.
  destruct (for_range _ _ _) as [[[go rw]|e] s1]; [|discriminate].
  pose proof (capture_state_pure s1) as Hp.
  destruct (capture_state s1) as [[st|e] s2] eqn:Ec; [|discriminate].
  cbn [snd] in Hp. subst s2. injection H as <- <- <- <-.
  split; [reflexivity|]. now rewrite Ec.
Qed.

Lemma range_length n : List.length (range n) = Z.to_nat n.
Proof. unfold range. now rewrite length_map, length_seq. Qed.

(** X1.  The reward [step] returns is 0 or 1, as [reward_range] declares,
    for every frame-skip count and in every state. *)
Theorem step_reward_in_range a s obs reward done s' :
  step a s = (Returned (obs, reward, done), s') ->
  (reward = 0 \/ reward = 1) /\
  fst reward_range <= reward <= snd reward_range.
Proof.
  intros H. apply step_returned in H as [H _].
  apply for_range_events in H as (Hfold & _).
  pose proof (settle_reward_range
                (tick_events (range (n_repeat_action (self s))) (with_action a s))
                false 0 (or_introl eq_refl)) as Hr.
  rewrite <- Hfold in Hr. cbn [snd] in Hr.
  split; [exact Hr|]. unfold reward_range. cbn [fst snd]. lia.
Qed.

(** X2.  What a returning [step] reports is the fold of what its sub-steps
    did, in order: each collision sets [done] and clears the reward, each
    retirement without collision sets the reward to 1, and nothing else
    touches them.  So [done] holds exactly when some sub-step of the call
    detected a collision, and there is one such record per requested
    sub-step: a collision ends neither the loop nor the bookkeeping. *)
Theorem step_reports_what_its_ticks_did a s obs reward done s' :
  step a s = (Returned (obs, reward, done), s') ->
  let ticks := tick_events (range (n_repeat_action (self s))) (with_action a s) in
  (done, reward) = fold_left settle ticks (false, 0) /\
  done = existsb snd ticks /\
  List.length ticks = Z.to_nat (n_repeat_action (self s)).
Proof.
  intros H ticks. apply step_returned in H as [H _].
  apply for_range_events in H as (Hfold & Hlen & _).
  fold ticks in Hfold, Hlen. split; [exact Hfold|]. split.
  - pose proof (settle_done ticks false 0) as Hd. rewrite <- Hfold in Hd. exact Hd.
  - now rewrite Hlen, range_length.
Qed.

(** X3.  A returning [step] adds to the score the number of its sub-steps
    that retired a set: never less than nothing, never more than the
    frame-skip count. *)
Theorem step_score_counts_retirements a s obs reward done s' :
  step a s = (Returned (obs, reward, done), s') ->
  let ticks := tick_events (range (n_repeat_action (self s))) (with_action a s) in
  score (self s') = score (self s) + Z.of_nat (List.length (filter fst ticks)) /\
  score (self s) <= score (self s') <= score (self s) + Z.max 0 (n_repeat_action (self s)).
Proof.
  intros H ticks. apply step_returned in H as [H _].
  apply for_range_events in H as (_ & Hlen & Hscore & _).
  fold ticks in Hlen, Hscore.
  destruct (with_action_fields a s) as (_ & Hsc & _). rewrite Hsc in Hscore.
  split; [exact Hscore|].
  pose proof (filter_length_le fst ticks) as Hle.
  rewrite Hlen, range_length in Hle. lia.
Qed.

(** X4.  A returning [step] with a positive frame-skip count [n] leaves the
    spawn counter at [(i + n) mod NEW_OBS_INTERVAL], hence within
    [0, NEW_OBS_INTERVAL) whatever it was before; with a count of 0 or less
    the counter is not touched. *)
Theorem step_advances_counter a s obs reward done s' :
  step a s = (Returned (obs, reward, done), s') ->
  i (self s') =
    (if 0 <? n_repeat_action (self s)
     then (i (self s) + n_repeat_action (self s)) mod NEW_OBS_INTERVAL
     else i (self s)) /\
  (0 < n_repeat_action (self s) -> 0 <= i (self s') < NEW_OBS_INTERVAL).
Proof.
  intros H. apply step_returned in H as [H _].
  apply for_range_events in H as (_ & _ & _ & Hi).
  destruct (with_action_fields a s) as (_ & _ & Hi0 & _). rewrite Hi0 in Hi.
  pose proof (range_length (n_repeat_action (self s))) as Hlen.
  assert (Heq : i (self s') =
    (if 0 <? n_repeat_action (self s)
     then (i (self s) + n_repeat_action (self s)) mod NEW_OBS_INTERVAL
     else i (self s))).
  { destruct (Z.ltb_spec 0 (n_repeat_action (self s))) as [Hpos|Hneg].
    - destruct (range (n_repeat_action (self s))) as [|k ks] eqn:E.
      + cbn in Hlen. lia.
      + rewrite Hi, Hlen. f_equal. lia.
    - destruct (range (n_repeat_action (self s))) as [|k ks] eqn:E; [exact Hi|].
      cbn in Hlen. lia. }
  split; [exact Heq|].
  intros Hpos. rewrite Heq.
  destruct (Z.ltb_spec 0 (n_repeat_action (self s))); [|lia].
  apply Z.mod_pos_bound. reflexivity.
Qed.


(** X6.  With a frame-skip count of 0 or less the loop body never runs:
    [step] stores the action, changes nothing else, and returns reward 0 and
    [done = False] with the observation of the unchanged state.  The control
    mode is not even looked at, so an invalid one goes unnoticed. *)
Theorem step_without_sub_steps a s :
  n_repeat_action (self s) <= 0 ->
  step a s =
    (match fst (capture_state (with_action a s)) with
     | Returned obs => Returned (obs, 0, false)
     | Raised e => Raised e
     end,
     with_action a s).
Proof.
  intros Hn. rewrite step_unfold. fold (with_action a s).
  assert (range (n_repeat_action (self s)) = []) as ->.
  { unfold range. destruct (Z.to_nat (n_repeat_action (self s))) eqn:E; [reflexivity|lia]. }
  cbn [for_range ret].
  pose proof (capture_state_pure (with_action a s)) as Hp.
  destruct (capture_state (with_action a s)) as [[st|e] s2]; cbn [fst snd] in *;
    subst s2; reflexivity.
Qed.

(** *** Observations *)

Lemma get_coord_state_pure s : snd (_get_coord_state s) = s.
Proof.
  destruct s as [g w].
  cbv [_get_coord_state query bind get_self ret raise self position x_span].
  destruct (oldest_obstacle_set (obstacle_manager g)) as [[|o1 [|o2 rest]]|];
    reflexivity.
Qed.

(** X7.  The observation functions are read-only: [_get_coord_state],
    [_get_pixel_state] and the capture at the end of [reset] and [step] leave
    the state exactly as it was, whether they return or raise, so calling one
    of them again gives the same result. *)
Theorem observations_are_read_only s :
  (snd (_get_coord_state s) = s /\
   fst (_get_coord_state (snd (_get_coord_state s))) = fst (_get_coord_state s)) /\
  (snd (_get_pixel_state s) = s /\
   fst (_get_pixel_state (snd (_get_pixel_state s))) = fst (_get_pixel_state s)) /\
  (snd (capture_state s) = s /\
   fst (capture_state (snd (capture_state s))) = fst (capture_state s)).
Proof.
  split; [|split].
  - split; [apply get_coord_state_pure|now rewrite get_coord_state_pure].
  - split; reflexivity.
  - split; [apply capture_state_pure|now rewrite capture_state_pure].
Qed.

Lemma sub_step_frame k acc acc' s s' :
  sub_step k acc s = (Returned acc', s') ->
  screen (self s') = paint (self s').
Proof.
  destruct acc as [go rw]. rewrite sub_step_unfold.
  destruct (_move_balls s) as [[[]|e] s1]; [|discriminate].
  cbv zeta.
  destruct (oldest_out_of_frame _) as [out|]; [|discriminate].
  destruct (oldest_obstacle_set _); [|discriminate].
  intros [= _ <-].
  destruct (after_spawn _) as [g w]. destruct g. reflexivity.
Qed.

Lemma for_range_frame ks acc acc' s s' :
  ks <> [] ->
  for_range ks acc s = (Returned acc', s') ->
  screen (self s') = paint (self s').
Proof.
  revert acc s. induction ks as [|k ks IH]; intros acc s Hne H; [contradiction|].
  cbn [for_range] in H. unfold bind in H.
  destruct (sub_step k acc s) as [[acc1|e] s1] eqn:E; [|discriminate].
  destruct ks as [|k2 ks2].
  - cbn in H. injection H as <- <-. exact (sub_step_frame _ _ _ _ _ E).
  - apply (IH acc1 s1); [discriminate|exact H].
Qed.

(** X8.  After a returning [step] with at least one sub-step the surface
    holds exactly one frame, drawn from the state the call leaves: the
    background, the ring, the blue and the red ball where they now are, one
    rectangle per live obstacle in the manager's order, and the score as it
    now stands.  With capture on, the pixel observation is that frame. *)
Theorem frame_shows_final_state a s obs reward done s' :
  0 < n_repeat_action (self s) ->
  step a s = (Returned (obs, reward, done), s') ->
  screen (self s') = paint (self s') /\
  (capture (self s') = true -> state_rep (self s') = "pixel"%string ->
   obs = Some (PixelState (paint (self s')))).
Proof.
  intros Hn H. apply step_returned in H as [Hloop Hcap].
  assert (Hscreen : screen (self s') = paint (self s')).
  { apply for_range_frame in Hloop; [exact Hloop|].
    destruct (range_pos _ Hn) as [ks ->]. discriminate. }
  split; [exact Hscreen|].
  intros Hc Hp. revert Hcap. rewrite <- Hscreen.
  destruct s' as [g' w']. cbn [self] in *.
  cbv [capture_state _get_pixel_state bind get_self ret self].
  rewrite Hc, Hp. cbn. now intros [= <-].
Qed.

Lemma capture_state_unknown_rep s :
  String.eqb (state_rep (self s)) "coord" = false ->
  String.eqb (state_rep (self s)) "pixel" = false ->
  capture_state s = (Returned None, s).
Proof.
  intros Hc Hp. destruct s as [g w]. cbn [self] in *.
  cbv [capture_state bind get_self ret self]. rewrite Hc, Hp.
  destruct (capture g); reflexivity.
Qed.

(** *** What no call changes *)

Lemma no_empty_set_gate m r : no_empty_set m -> no_empty_set (fst (new_obstacle_set m r)).
Proof.
  intros H. rewrite new_obstacle_set_sets. unfold no_empty_set in *. cbn [obstacle_sets].
  apply Forall_app. split; [exact H|].
  constructor; [|constructor].
  unfold gate_obstacles. destruct (spawned_gate m r) as [o1 [o2|]]; discriminate.
Qed.

Lemma no_empty_set_move m : no_empty_set m -> no_empty_set (move_all m).
Proof.
  unfold no_empty_set, move_all. cbn [obstacle_sets].
  induction 1 as [|set sets Hset _ IH]; cbn [map]; constructor; [|exact IH].
  destruct set; [contradiction|discriminate].
Qed.

Lemma no_empty_set_remove m : no_empty_set m -> no_empty_set (remove_obstacle_set m).
Proof.
  unfold no_empty_set, remove_obstacle_set. cbn [obstacle_sets].
  destruct 1; [constructor|assumption].
Qed.

(** A sub-step, returning or not, leaves the configuration alone and puts
    no empty set into the manager. *)
Lemma sub_step_keeps k acc s :
  config_of (self (snd (sub_step k acc s))) = config_of (self s) /\
  (no_empty_set (obstacle_manager (self s)) ->
   no_empty_set (obstacle_manager (self (snd (sub_step k acc s))))).
Proof.
  destruct acc as [go rw].
  destruct (sub_step_cases k go rw s) as [(e & _ & E & _)|(f & kb & Hf & E & _)].
  { rewrite E. split; [reflexivity|trivial]. }
  cbv zeta in E. rewrite E. clear E.
  set (s1 := mkSt (with_balls f (self s)) (mkWorld (rng (world s)) kb)) in *.
  set (s2 := obstacles_moved s1) in *.
  destruct (with_balls_fields f (self s)) as (B1 & _ & _ & B4 & _).
  destruct (obstacles_moved_fields s1) as (M1 & _ & _ & M4 & _).
  fold s2 in M1, M4. change (self s1) with (with_balls f (self s)) in *.
  assert (H2 : no_empty_set (obstacle_manager (self s)) ->
               no_empty_set (obstacle_manager (self s2))).
  { intros H. rewrite M4, B4. now apply no_empty_set_move. }
  destruct (oldest_out_of_frame (obstacle_manager (self s2))) as [out|]; cbn [snd].
  2: { split; [congruence|exact H2]. }
  set (s3 := mkSt (after_retirement (self s2) out) (world s2)) in *.
  set (s5 := painted (after_spawn s3)) in *.
  destruct (counted_fields s5) as (C1 & _ & _ & C4 & _).
  destruct (painted_fields (after_spawn s3)) as (P1 & _ & _ & P4 & _).
  destruct (after_spawn_fields s3) as (A1 & _ & _ & A4 & _).
  destruct (after_retirement_fields (self s2) out) as (R1 & _ & _ & R4 & _).
  fold s5 in P1, P4. change (self s3) with (after_retirement (self s2) out) in *.
  assert (H5 : no_empty_set (obstacle_manager (self s)) ->
               no_empty_set (obstacle_manager (self s5))).
  { intros H. rewrite P4, A4.
    assert (H3 : no_empty_set (obstacle_manager (after_retirement (self s2) out))).
    { rewrite R4. destruct out; [apply no_empty_set_remove|]; now apply H2. }
    destruct (_ =? 0); [now apply no_empty_set_gate|exact H3]. }
  destruct (oldest_obstacle_set (obstacle_manager (self s5))); cbn [snd].
  - split; [congruence|]. intros H. rewrite C4. now apply H5.
  - split; [congruence|exact H5].
Qed.

Lemma for_range_keeps ks acc s :
  config_of (self (snd (for_range ks acc s))) = config_of (self s) /\
  (no_empty_set (obstacle_manager (self s)) ->
   no_empty_set (obstacle_manager (self (snd (for_range ks acc s))))).
Proof.
  revert acc s. induction ks as [|k ks IH]; intros acc s; [split; trivial|].
  cbn [for_range]. unfold bind.
  destruct (sub_step_keeps k acc s) as [Hc Hn].
  destruct (sub_step k acc s) as [[acc'|e] s1]; cbn [snd] in *.
  - destruct (IH acc' s1) as [Hc' Hn']. split; [congruence|auto].
  - split; assumption.
Qed.

Lemma step_state a s :
  snd (step a s) =
  snd (for_range (range (n_repeat_action (self s))) (false, 0) (with_action a s)).
Proof.
  rewrite step_unfold. fold (with_action a s).
  destruct (for_range _ _ _) as [[[go rw]|e] s1]; cbn [snd]; [|reflexivity].
  pose proof (capture_state_pure s1) as Hp.
  destruct (capture_state s1) as [[st|e] s2]; exact Hp.
Qed.

Lemma step_keeps a s :
  config_of (self (snd (step a s))) = config_of (self s) /\
  (no_empty_set (obstacle_manager (self s)) ->
   no_empty_set (obstacle_manager (self (snd (step a s))))).
Proof.
  rewrite step_state.
  destruct (for_range_keeps (range (n_repeat_action (self s))) (false, 0)
              (with_action a s)) as [Hc Hn].
  destruct (with_action_fields a s) as (W1 & _ & _ & W4 & _).
  rewrite W1 in Hc. rewrite W4 in Hn. split; assumption.
Qed.

Lemma config_state_rep g1 g2 :
  config_of g1 = config_of g2 ->
  state_rep g1 = state_rep g2 /\ mode g1 = mode g2 /\ capture g1 = capture g2 /\
  n_repeat_action g1 = n_repeat_action g2 /\ controller g1 = controller g2.
Proof. unfold config_of. intros [= -> -> -> -> _ _ _ -> _]. repeat split. Qed.

Lemma step_unknown_rep a s obs reward done s' :
  String.eqb (state_rep (self s)) "coord" = false ->
  String.eqb (state_rep (self s)) "pixel" = false ->
  step a s = (Returned (obs, reward, done), s') ->
  obs = None /\ state_rep (self s') = state_rep (self s).
Proof.
  intros Hc Hp H.
  pose proof (step_keeps a s) as [Hcfg _]. rewrite H in Hcfg. cbn [snd] in Hcfg.
  apply config_state_rep in Hcfg as (Hsr & _).
  apply step_returned in H as [_ Hcap].
  rewrite capture_state_unknown_rep in Hcap by (rewrite Hsr; assumption).
  split; [now injection Hcap as <-|exact Hsr].
Qed.

(** X9.  With a [state_rep] that is neither ["coord"] nor ["pixel"] nothing
    is ever observed, with capture on or off: [reset] returns [None] and
    keeps [state_rep]; every returning [step] returns [None] as its
    observation and keeps [state_rep]; and so every call of a returning
    sequence of steps returns [None]. *)
Theorem unknown_state_rep_yields_no_observation s :
  String.eqb (state_rep (self s)) "coord" = false ->
  String.eqb (state_rep (self s)) "pixel" = false ->
  fst (reset s) = Returned None /\
  state_rep (self (snd (reset s))) = state_rep (self s) /\
  (forall a obs reward done s',
     step a s = (Returned (obs, reward, done), s') ->
     obs = None /\ state_rep (self s') = state_rep (self s)) /\
  (forall acts rs s',
     steps acts s = (Returned rs, s') ->
     Forall (fun r => fst (fst r) = None) rs).
Proof.
  intros Hc Hp. split; [|split; [|split]].
  - rewrite reset_unfold. cbn [fst]. rewrite capture_after_reset, Hc, Hp.
    destruct (capture (self s)); reflexivity.
  - rewrite reset_unfold. cbn [snd].
    destruct (reset_state_fields s) as (Hcfg & _).
    now apply config_state_rep in Hcfg as (Hsr & _).
  - intros a obs reward done s'. now apply step_unknown_rep.
  - intros acts. revert s Hc Hp.
    induction acts as [|a acts IH]; intros s Hc Hp rs s'.
    + cbn. intros [= <- _]. constructor.
    + cbn [steps]. unfold bind.
      destruct (step a s) as [[[[obs rw] go]|e] s1] eqn:E; [|discriminate].
      destruct (step_unknown_rep _ _ _ _ _ _ Hc Hp E) as [-> Hsr].
      destruct (steps acts s1) as [[rs1|e] s2] eqn:E1; [|discriminate].
      unfold ret. intros [= <- _]. constructor; [reflexivity|].
      apply (IH s1) with (s' := s2); [now rewrite Hsr..|exact E1].
Qed.

(** *** Nothing raises in a well-configured environment *)

Lemma move_balls_returns s :
  valid_mode (mode (self s)) = true ->
  (String.eqb (mode (self s)) "contr" = true -> controller (self s) = true) ->
  exists f kb, ball_motion f /\
    _move_balls s =
      (Returned tt, mkSt (with_balls f (self s)) (mkWorld (rng (world s)) kb)).
Proof.
  intros Hv Hctl.
  destruct (move_balls_cases s) as [H|(e & _ & E)]; [exact H|exfalso].
  revert E. destruct s as [g [r kbd]]. cbn [self] in *.
  unfold _move_balls, bind, get_self, get_pressed. cbn [self world keyboard rng].
  unfold valid_mode in Hv.
  destruct (String.eqb (mode g) "man").
  { destruct kbd as [|key rest]; [discriminate|].
    cbn [self world keyboard rng].
    destruct (K_LEFT key); [|destruct (K_RIGHT key)]; discriminate. }
  destruct (String.eqb (mode g) "contr").
  { rewrite (Hctl eq_refl).
    destruct (_ =? -1); [|destruct (_ =? 1)]; discriminate. }
  destruct (String.eqb (mode g) "ai"); [|discriminate].
  destruct (action g) as [[|[p|p|]|p]|]; try discriminate.
  destruct p; discriminate.
Qed.

Lemma ready_sub_step k acc s :
  gates_outlast_interval ->
  ready (self s) ->
  exists acc' s', sub_step k acc s = (Returned acc', s') /\ ready (self s').
Proof.
  intros Hgates (Hcad & Hne & Hv & Hctl).
  destruct (sub_step_cadence k acc s Hgates Hcad) as [Hcad' Herr].
  destruct (sub_step_keeps k acc s) as [Hcfg Hne'].
  assert (Hret : exists acc' s', sub_step k acc s = (Returned acc', s')).
  { clear Hcad' Hcfg Hne'. destruct acc as [go rw].
    rewrite sub_step_unfold in Herr |- *.
    destruct (move_balls_returns s Hv Hctl) as (f & kb & _ & E).
    rewrite E in Herr |- *. clear E. cbv zeta in Herr |- *.
    destruct (oldest_out_of_frame _) as [out|].
    2: { specialize (Herr _ eq_refl). discriminate. }
    destruct (oldest_obstacle_set _) as [oldest|].
    2: { specialize (Herr _ eq_refl). discriminate. }
    eauto. }
  destruct Hret as (acc' & s' & E). exists acc', s'. split; [exact E|].
  rewrite E in *. cbn [snd] in *.
  apply config_state_rep in Hcfg as (_ & Hm & _ & _ & Hc).
  split; [exact Hcad'|]. split; [auto|]. split; [now rewrite Hm|].
  rewrite Hm, Hc. exact Hctl.
Qed.

Lemma ready_for_range ks acc s :
  gates_outlast_interval ->
  ready (self s) ->
  exists acc' s', for_range ks acc s = (Returned acc', s') /\ ready (self s').
Proof.
  intros Hgates. revert acc s. induction ks as [|k ks IH]; intros acc s Hr.
  - exists acc, s. split; [reflexivity|exact Hr].
  - cbn [for_range]. unfold bind.
    destruct (ready_sub_step k acc s Hgates Hr) as (acc1 & s1 & -> & Hr1).
    apply IH, Hr1.
Qed.

Lemma ready_capture s :
  ready (self s) -> exists obs, capture_state s = (Returned obs, s).
Proof.
  intros (Hcad & Hne & _). apply cadence_live in Hcad.
  destruct s as [g w]. cbn [self] in *. unfold no_empty_set in Hne.
  cbv [capture_state _get_coord_state _get_pixel_state query bind get_self ret raise
       self position x_span oldest_obstacle_set].
  destruct (capture g); [|eauto].
  destruct (String.eqb (state_rep g) "coord").
  - destruct (obstacle_sets (obstacle_manager g)) as [|[|o1 [|o2 rest]] more];
      [contradiction| | |]; cbn [hd_error]; eauto.
    inversion Hne as [|? ? Habs]. contradiction.
  - destruct (String.eqb (state_rep g) "pixel"); eauto.
Qed.

Lemma ready_fresh g random r :
  gates_outlast_interval ->
  i g = 1 ->
  obstacle_manager g = fst (new_obstacle_set (ObstacleManager_init random) r) ->
  valid_mode (mode g) = true ->
  (String.eqb (mode g) "contr" = true -> controller g = true) ->
  ready g.
Proof.
  intros Hgates Hi Hm Hv Hc. split; [|split; [|split]]; try assumption.
  - now apply fresh_manager_cadence with (2 := Hi) (3 := Hm).
  - rewrite Hm. apply no_empty_set_gate. constructor.
Qed.

(** X10.  When every spawned gate needs at least [NEW_OBS_INTERVAL] moves
    to leave the frame, an environment set up by [man_init] with one of the
    modes ["man"], ["contr"], ["ai"] never raises: [man_init] and [reset]
    leave a state that is ready, and from a ready state [step] returns, for
    every action, key state and frame-skip, and leaves a ready state. *)
Theorem step_always_returns :
  gates_outlast_interval ->
  (forall mode0 capture0 cfg w,
     valid_mode (cfg_mode cfg) = true ->
     ready (self (man_init (__init__ mode0 capture0) cfg w))) /\
  (forall s, ready (self s) ->
     exists obs, reset s = (Returned obs, snd (reset s)) /\ ready (self (snd (reset s)))) /\
  (forall a s, ready (self s) ->
     exists obs reward done s',
       step a s = (Returned (obs, reward, done), s') /\ ready (self s')).
Proof.
  intros Hgates. split; [|split].
  - intros mode0 capture0 cfg w Hv.
    apply ready_fresh with (random := cfg_random_obstacles cfg) (r := rng w);
      try exact Hgates.
    all: unfold man_init; destruct (new_obstacle_set _ _); cbn; try reflexivity.
    + exact Hv.
    + intros E. now rewrite E.
  - intros s (_ & _ & Hv & Hc).
    rewrite reset_unfold. cbn [snd].
    destruct (reset_state_fields s) as (Hcfg & _ & _ & Hi & Hm & _).
    apply config_state_rep in Hcfg as (_ & Hmode & _ & _ & Hctl).
    assert (Hr : ready (self (reset_state s))).
    { apply ready_fresh with (2 := Hi) (3 := Hm); try exact Hgates.
      - now rewrite Hmode.
      - rewrite Hmode, Hctl. exact Hc. }
    destruct (ready_capture _ Hr) as [obs ->]. exists obs. split; [reflexivity|exact Hr].
  - intros a s Hr. rewrite step_unfold. fold (with_action a s).
    assert (Hr0 : ready (self (with_action a s))).
    { destruct s as [g w]. destruct g. exact Hr. }
    destruct (ready_for_range (range (n_repeat_action (self s))) (false, 0) _ Hgates Hr0)
      as ([go rw] & s1 & -> & Hr1).
    destruct (ready_capture _ Hr1) as [obs ->].
    exists obs, rw, go, s1. split; [reflexivity|exact Hr1].
Qed.

(** *** The action, the keyboard and the balls *)

(** What follows [_move_balls] in a sub-step leaves the stored action, the
    balls and the pending key states alone. *)
Lemma after_move_balls s1 out :
  let s6 := counted (painted (after_spawn
              (mkSt (after_retirement (self (obstacles_moved s1)) out)
                    (world (obstacles_moved s1))))) in
  action (self s6) = action (self s1) /\
  blue_ball (self s6) = blue_ball (self s1) /\
  red_ball (self s6) = red_ball (self s1) /\
  keyboard (world s6) = keyboard (world s1).
Proof.
  destruct s1 as [g [r kbd]]. destruct g.
  unfold after_spawn, after_retirement, spawn_obstacle_set.
  destruct out; py_run.
  all: destruct (_ =? 0); py_run; [destruct (new_obstacle_set _ _)|]; repeat split.
Qed.

Lemma move_balls_keyboard s s1 :
  _move_balls s = (Returned tt, s1) ->
  keyboard (world s1) =
    (if String.eqb (mode (self s)) "man" then tl (keyboard (world s))
     else keyboard (world s)) /\
  action (self s1) = action (self s).
Proof.
  destruct s as [g [r kbd]]. destruct g as [gm gc gs gctl ga gscr gsc gi gf1 gf2 gf3 gos gn gr gom gd gb grd gv].
  unfold _move_balls, bind, get_self, get_pressed. cbn [self world keyboard rng mode controller action].
  destruct (String.eqb gm "man").
  { destruct kbd as [|key rest]; cbn [self world keyboard rng].
    - intros [= <-]. split; reflexivity.
    - destruct (K_LEFT key); [|destruct (K_RIGHT key)]; intros [= <-]; split; reflexivity. }
  destruct (String.eqb gm "contr").
  { destruct gctl; [|discriminate].
    destruct (_ =? -1); [|destruct (_ =? 1)]; intros [= <-]; split; reflexivity. }
  destruct (String.eqb gm "ai"); [|discriminate].
  destruct ga as [[|[p|p|]|p]|]; try (intros [= <-]; split; reflexivity).
  destruct p; intros [= <-]; split; reflexivity.
Qed.

Lemma move_balls_ai s :
  mode (self s) = "ai"%string ->
  _move_balls s =
    (Returned tt, mkSt (with_balls (action_motion (action (self s))) (self s)) (world s)).
Proof.
  destruct s as [g [r kbd]]. destruct g as [gm gc gs gctl ga gscr gsc gi gf1 gf2 gf3 gos gn gr gom gd gb grd gv].
  cbn [self mode]. intros ->.
  unfold _move_balls, bind, get_self. cbn [self world mode action String.eqb Ascii.eqb Bool.eqb].
  destruct ga as [[|[p|p|]|p]|]; try reflexivity.
  destruct p; reflexivity.
Qed.

Lemma sub_step_keyboard k acc acc' s s' :
  sub_step k acc s = (Returned acc', s') ->
  keyboard (world s') =
    (if String.eqb (mode (self s)) "man" then tl (keyboard (world s))
     else keyboard (world s)) /\
  action (self s') = action (self s).
Proof.
  destruct acc as [go rw]. rewrite sub_step_unfold.
  destruct (_move_balls s) as [[[]|e] s1] eqn:Em; [|discriminate].
  apply move_balls_keyboard in Em as [Hk Ha].
  cbv zeta.
  destruct (oldest_out_of_frame _) as [out|]; [|discriminate].
  destruct (oldest_obstacle_set _); [|discriminate].
  intros [= _ <-].
  destruct (after_move_balls s1 out) as (A1 & _ & _ & A4).
  cbv zeta in A1, A4.
  split; [exact (eq_trans A4 Hk)|exact (eq_trans A1 Ha)].
Qed.

Lemma sub_step_ai k acc acc' s s' :
  mode (self s) = "ai"%string ->
  sub_step k acc s = (Returned acc', s') ->
  blue_ball (self s') = action_motion (action (self s)) (blue_ball (self s)) /\
  red_ball (self s') = action_motion (action (self s)) (red_ball (self s)).
Proof.
  intros Hai. destruct acc as [go rw]. rewrite sub_step_unfold.
  rewrite (move_balls_ai s Hai). cbv zeta.
  destruct (oldest_out_of_frame _) as [out|]; [|discriminate].
  destruct (oldest_obstacle_set _); [|discriminate].
  intros [= _ <-].
  destruct (after_move_balls
              (mkSt (with_balls (action_motion (action (self s))) (self s)) (world s)) out)
    as (_ & A2 & A3 & _).
  cbv zeta in A2, A3.
  destruct (with_balls_fields (action_motion (action (self s))) (self s))
    as (_ & _ & _ & _ & B5 & B6).
  split; [exact (eq_trans A2 B5)|exact (eq_trans A3 B6)].
Qed.

Lemma for_range_moves ks acc acc' s s' :
  for_range ks acc s = (Returned acc', s') ->
  action (self s') = action (self s) /\
  keyboard (world s') =
    (if String.eqb (mode (self s)) "man"
     then skipn (List.length ks) (keyboard (world s))
     else keyboard (world s)) /\
  (mode (self s) = "ai"%string ->
   blue_ball (self s') =
     Nat.iter (List.length ks) (action_motion (action (self s))) (blue_ball (self s)) /\
   red_ball (self s') =
     Nat.iter (List.length ks) (action_motion (action (self s))) (red_ball (self s))).
Proof.
  revert acc s. induction ks as [|k ks IH]; intros acc s H.
  - cbn in H. injection H as _ <-. cbn [List.length skipn Nat.iter nat_rect].
    destruct (String.eqb _ _); repeat split.
  - cbn [for_range] in H. unfold bind in H.
    destruct (sub_step k acc s) as [[acc1|e] s1] eqn:E; [|discriminate].
    destruct (sub_step_keyboard _ _ _ _ _ E) as [Hk Ha].
    pose proof (sub_step_keeps k acc s) as [Hcfg _]. rewrite E in Hcfg. cbn [snd] in Hcfg.
    apply config_state_rep in Hcfg as (_ & Hm & _).
    destruct (IH _ _ H) as (Ha' & Hk' & Hb'). rewrite Hm, Ha in *.
    split; [exact Ha'|]. split.
    + rewrite Hk', Hk. destruct (String.eqb _ _); [|reflexivity].
      cbn [List.length]. destruct (keyboard (world s)); [now rewrite skipn_nil|reflexivity].
    + intros Hai. destruct (Hb' Hai) as [Hblue Hred].
      destruct (sub_step_ai _ _ _ _ _ Hai E) as [Sb Sr].
      cbn [List.length]. rewrite !Nat.iter_succ_r, <- Sb, <- Sr. split; assumption.
Qed.

Lemma action_motion_idle a :
  a <> Some 1 -> a <> Some 2 -> action_motion a = fun b => b.
Proof.
  intros H1 H2. destruct a as [[|[p|p|]|p]|]; try reflexivity.
  - destruct p; try reflexivity. contradiction.
  - contradiction.
Qed.

Lemma iter_idle {A} n (x : A) : Nat.iter n (fun b => b) x = x.
Proof. induction n; [reflexivity|exact IHn]. Qed.

Lemma step_moves a s obs reward done s' :
  step a s = (Returned (obs, reward, done), s') ->
  let n := Z.to_nat (n_repeat_action (self s)) in
  action (self s') = a /\
  keyboard (world s') =
    (if String.eqb (mode (self s)) "man" then skipn n (keyboard (world s))
     else keyboard (world s)) /\
  (mode (self s) = "ai"%string ->
   blue_ball (self s') = Nat.iter n (action_motion a) (blue_ball (self s)) /\
   red_ball (self s') = Nat.iter n (action_motion a) (red_ball (self s))).
Proof.
  intros H n. apply step_returned in H as [Hloop _].
  apply for_range_moves in Hloop as (Ha & Hk & Hb).
  destruct (with_action_fields a s) as (W1 & _ & _ & _ & W5 & W6 & W7 & W8).
  apply config_state_rep in W1 as (_ & Wm & _).
  rewrite Wm, W5, W6, W7, W8, range_length in *. fold n in Hk, Hb.
  split; [exact Ha|]. split; [exact Hk|exact Hb].
Qed.

(** X11.  In mode ["ai"] a returning [step] stores its argument as the
    action and applies the motion that action stands for ([spin_left] for 1,
    [spin_right] for 2, none for anything else) to both balls once per
    sub-step, [n_repeat_action] times in all.  No value of the action is
    rejected: [None] and numbers outside 0..2 leave both balls where they
    are. *)
Theorem ai_step_moves_by_action a s obs reward done s' :
  mode (self s) = "ai"%string ->
  step a s = (Returned (obs, reward, done), s') ->
  let n := Z.to_nat (n_repeat_action (self s)) in
  action (self s') = a /\
  blue_ball (self s') = Nat.iter n (action_motion a) (blue_ball (self s)) /\
  red_ball (self s') = Nat.iter n (action_motion a) (red_ball (self s)) /\
  (a <> Some 1 -> a <> Some 2 ->
   blue_ball (self s') = blue_ball (self s) /\ red_ball (self s') = red_ball (self s)).
Proof.
  intros Hai H n. apply step_moves in H as (Ha & _ & Hb).
  destruct (Hb Hai) as [Hblue Hred]. fold n in Hblue, Hred.
  repeat split; try assumption.
  - rewrite Hblue, action_motion_idle by assumption. apply iter_idle.
  - rewrite Hred, action_motion_idle by assumption. apply iter_idle.
Qed.

(** X12.  The keyboard is read in mode ["man"] only, and there once per
    sub-step: a returning [step] has consumed [n_repeat_action] key states
    in mode ["man"] and none in any other mode. *)
Theorem keyboard_read_once_per_sub_step a s obs reward done s' :
  step a s = (Returned (obs, reward, done), s') ->
  keyboard (world s') =
    (if String.eqb (mode (self s)) "man"
     then skipn (Z.to_nat (n_repeat_action (self s))) (keyboard (world s))
     else keyboard (world s)).
Proof. intros H. now apply step_moves in H as (_ & Hk & _). Qed.

(** *** Modes that do not read the action *)

Lemma with_action_twice a b s : with_action a (with_action b s) = with_action a s.
Proof. destruct s as [g w]. destruct g. reflexivity. Qed.

Lemma move_balls_with_action a s :
  String.eqb (mode (self s)) "ai" = false ->
  _move_balls (with_action a s) =
    (fst (_move_balls s), with_action a (snd (_move_balls s))).
Proof.
  destruct s as [g [r kbd]]. destruct g as [gm gc gs gctl ga gscr gsc gi gf1 gf2 gf3 gos gn gr gom gd gb grd gv].
  cbn [self mode]. intros Hai.
  unfold _move_balls, with_action, bind, get_self, get_pressed.
  cbn [self world keyboard rng mode controller action set_action obstacle_manager
       red_ball blue_ball].
  destruct (String.eqb gm "man").
  { destruct kbd as [|key rest]; cbn [self world keyboard rng]; [reflexivity|].
    destruct (K_LEFT key); [|destruct (K_RIGHT key)]; reflexivity. }
  destruct (String.eqb gm "contr").
  { destruct gctl; [|reflexivity].
    destruct (_ =? -1); [|destruct (_ =? 1)]; reflexivity. }
  rewrite Hai. reflexivity.
Qed.

Lemma after_move_balls_with_action a s1 out :
  let rest s := counted (painted (after_spawn
                  (mkSt (after_retirement (self (obstacles_moved s)) out)
                        (world (obstacles_moved s))))) in
  obstacle_manager (self (obstacles_moved (with_action a s1))) =
    obstacle_manager (self (obstacles_moved s1)) /\
  rest (with_action a s1) = with_action a (rest s1) /\
  painted (after_spawn
             (mkSt (after_retirement (self (obstacles_moved (with_action a s1))) out)
                   (world (obstacles_moved (with_action a s1))))) =
    with_action a
      (painted (after_spawn
                  (mkSt (after_retirement (self (obstacles_moved s1)) out)
                        (world (obstacles_moved s1))))) /\
  obstacles_moved (with_action a s1) = with_action a (obstacles_moved s1).
Proof.
  destruct s1 as [g [r kbd]]. destruct g.
  unfold after_spawn, after_retirement, spawn_obstacle_set, with_action.
  destruct out; py_run.
  all: destruct (_ =? 0); py_run; [destruct (new_obstacle_set _ _)|]; repeat split.
Qed.

Lemma sub_step_with_action a k acc s :
  String.eqb (mode (self s)) "ai" = false ->
  sub_step k acc (with_action a s) =
    (fst (sub_step k acc s), with_action a (snd (sub_step k acc s))).
Proof.
  intros Hai. destruct acc as [go rw]. rewrite !sub_step_unfold.
  rewrite (move_balls_with_action a s Hai).
  destruct (_move_balls s) as [[[]|e] s1]; cbn [fst snd]; [|reflexivity].
  cbv zeta.
  destruct (after_move_balls_with_action a s1 true) as (M1 & _ & _ & M4).
  rewrite M1.
  destruct (oldest_out_of_frame _) as [out|]; cbn [fst snd]; [|now rewrite M4].
  destruct (after_move_balls_with_action a s1 out) as (_ & R & P & _).
  cbv zeta in R. rewrite R, P.
  set (s5 := painted _).
  replace (obstacle_manager (self (with_action a s5))) with (obstacle_manager (self s5))
    by (destruct s5 as [g5 w5]; destruct g5; reflexivity).
  replace (blue_ball (self (with_action a s5))) with (blue_ball (self s5))
    by (destruct s5 as [g5 w5]; destruct g5; reflexivity).
  replace (red_ball (self (with_action a s5))) with (red_ball (self s5))
    by (destruct s5 as [g5 w5]; destruct g5; reflexivity).
  destruct (oldest_obstacle_set _); reflexivity.
Qed.

Lemma for_range_with_action a ks acc s :
  String.eqb (mode (self s)) "ai" = false ->
  for_range ks acc (with_action a s) =
    (fst (for_range ks acc s), with_action a (snd (for_range ks acc s))).
Proof.
  revert acc s. induction ks as [|k ks IH]; intros acc s Hai; [reflexivity|].
  cbn [for_range]. unfold bind. rewrite (sub_step_with_action a k acc s Hai).
  pose proof (sub_step_keeps k acc s) as [Hcfg _].
  apply config_state_rep in Hcfg as (_ & Hm & _).
  destruct (sub_step k acc s) as [[acc1|e] s1]; cbn [fst snd] in *; [|reflexivity].
  apply IH. now rewrite Hm.
Qed.

Lemma capture_with_action a s :
  fst (capture_state (with_action a s)) = fst (capture_state s).
Proof.
  destruct s as [g w]. destruct g as [gm gc gs gctl ga gscr gsc gi gf1 gf2 gf3 gos gn gr gom gd gb grd gv].
  cbv [capture_state _get_coord_state _get_pixel_state query bind get_self ret raise
       with_action set_action self world position x_span oldest_obstacle_set
       capture state_rep blue_ball red_ball obstacle_manager screen mode controller
       score i score_font game_over_font restart_font observation_space
       n_repeat_action random_obstacles draw_rects visualize action].
  destruct gc; [|reflexivity].
  destruct (String.eqb gs "coord").
  - destruct (obstacle_sets gom) as [|[|o1 [|o2 rest]] more]; reflexivity.
  - destruct (String.eqb gs "pixel"); reflexivity.
Qed.

(** X13.  In every mode other than ["ai"] the argument of [step] is stored
    and nothing else: two calls from the same state with different actions
    return or raise alike, with the same observation, reward and flag, and
    leave states that differ in the stored action only. *)
Theorem other_modes_ignore_the_action a b s :
  String.eqb (mode (self s)) "ai" = false ->
  fst (step a s) = fst (step b s) /\
  snd (step a s) = with_action a (snd (step b s)) /\
  action (self (snd (step a s))) = a.
Proof.
  intros Hai.
  assert (E : step a s = (fst (step b s), with_action a (snd (step b s)))).
  { rewrite !step_unfold. fold (with_action a s) (with_action b s).
    rewrite <- (with_action_twice a b s).
    assert (Hb : String.eqb (mode (self (with_action b s))) "ai" = false).
    { destruct s as [g w]. destruct g. exact Hai. }
    rewrite (for_range_with_action a _ _ _ Hb).
    replace (n_repeat_action (self (with_action a (with_action b s))))
      with (n_repeat_action (self s))
      by (destruct s as [g w]; destruct g; reflexivity).
    destruct (for_range _ _ (with_action b s)) as [[[go rw]|e] s1]; cbn [fst snd];
      [|reflexivity].
    pose proof (capture_with_action a s1) as Hc.
    pose proof (capture_state_pure (with_action a s1)) as Hp1.
    pose proof (capture_state_pure s1) as Hp2.
    destruct (capture_state (with_action a s1)) as [o1 t1].
    destruct (capture_state s1) as [o2 t2].
    cbn [fst snd] in *. subst. destruct o2; reflexivity. }
  rewrite E. cbn [fst snd]. split; [reflexivity|]. split; [reflexivity|].
  destruct (snd (step b s)) as [g w]. destruct g. reflexivity.
Qed.

(** *** [game_loop] *)

Lemma game_loop_while_exit fuel polls s game_over quit_game s' :
  game_loop_while fuel polls s = (Returned (Some (game_over, quit_game)), s') ->
  game_over || quit_game = true.
Proof.
  revert polls s. induction fuel as [|fuel IH]; intros polls s; [discriminate|].
  cbn [game_loop_while]. unfold bind, render, ret.
  destruct (step None s) as [[[[obs rw] go]|e] s1]; [|discriminate].
  destruct (go || window_closed (hd [] polls)) eqn:Hexit.
  - now intros [= <- <- _].
  - apply IH.
Qed.

Lemma game_loop_while_ai fuel polls s r s' :
  mode (self s) = "ai"%string ->
  game_loop_while fuel polls s = (Returned r, s') ->
  blue_ball (self s') = blue_ball (self s) /\
  red_ball (self s') = red_ball (self s) /\
  keyboard (world s') = keyboard (world s).
Proof.
  revert polls s. induction fuel as [|fuel IH]; intros polls s Hai.
  { cbn. intros [= _ <-]. repeat split. }
  cbn [game_loop_while]. unfold bind, render, ret.
  destruct (step None s) as [[[[obs rw] go]|e] s1] eqn:E; [|discriminate].
  pose proof (step_keeps None s) as [Hcfg _]. rewrite E in Hcfg. cbn [snd] in Hcfg.
  apply config_state_rep in Hcfg as (_ & Hm & _).
  destruct (step_moves _ _ _ _ _ _ E) as (_ & Hk & Hmv).
  destruct (Hmv Hai) as [Hb Hr]. rewrite iter_idle in Hb, Hr.
  rewrite Hai in Hk. cbn in Hk.
  destruct (go || window_closed (hd [] polls)).
  - intros [= _ <-]. repeat split; assumption.
  - intros H. apply IH in H; [|now rewrite Hm]. rewrite <- Hb, <- Hr, <- Hk. exact H.
Qed.

(** X14.  [game_loop] yields the answer of the game-over screen whenever
    the pass that ended its loop reported a collision, also when the window
    was closed during that very pass; it yields [True] in every other case.
    It enters the loop with the counter at 1 and the score at 0, but with
    the obstacles and balls it finds. *)
Theorem game_loop_result game_over_screen fuel polls s quit_game s' :
  game_loop game_over_screen fuel polls s = (Returned (Some quit_game), s') ->
  exists game_over closed s1,
    game_loop_while fuel polls (mkSt (set_score 0 (set_i 1 (self s))) (world s)) =
      (Returned (Some (game_over, closed)), s1) /\
    (game_over = true -> game_over_screen s1 = (Returned quit_game, s')) /\
    (game_over = false -> closed = true /\ quit_game = true /\ s' = s1).
Proof.
  unfold game_loop, bind, update. cbn [self world].
  destruct (game_loop_while fuel polls _) as [[[[go qg]|]|e] s1] eqn:E;
    [| |discriminate].
  2: { unfold ret. discriminate. }
  pose proof (game_loop_while_exit _ _ _ _ _ _ E) as Hexit.
  intros H. exists go, qg, s1. split; [reflexivity|].
  destruct go; cbn [orb] in Hexit.
  - split; [|discriminate]. intros _.
    destruct (game_over_screen s1) as [[q|e] s2]; [|discriminate].
    unfold ret in H. now injection H as <- <-.
  - split; [discriminate|]. intros _. subst qg.
    unfold ret in H. now injection H as <- <-.
Qed.

(** X15.  In mode ["ai"] the loop of [game_loop] plays no move: it calls
    [step] with no action, so however many passes it makes, both balls stay
    where they were, and no key state is read. *)
Theorem game_loop_in_ai_mode_plays_idle fuel polls s r s' :
  mode (self s) = "ai"%string ->
  game_loop_while fuel polls (mkSt (set_score 0 (set_i 1 (self s))) (world s)) =
    (Returned r, s') ->
  blue_ball (self s') = blue_ball (self s) /\
  red_ball (self s') = red_ball (self s) /\
  keyboard (world s') = keyboard (world s).
Proof.
  intros Hai H. apply game_loop_while_ai in H.
  - destruct s as [g w]. destruct g. exact H.
  - destruct s as [g w]. destruct g. exact Hai.
Qed.

End MoreProperties.

(* ------------------------------------------------------------------ *)
(** ** Worked examples on the sample backend *)

Import Sample.

(** The sample ring agrees with the constructor arguments of
    [_init_balls]. *)
Lemma sample_orbit_at_start :
  orbit_xy angle_pi CIRCLE_RADIUS = position (init_blue_ball false) /\
  orbit_xy angle_zero CIRCLE_RADIUS = position (init_red_ball false).
Proof. split; vm_compute; reflexivity. Qed.

(** The three example states, spelled out: live sets, counter, score. *)
Lemma collision_course_state :
  match fst (steps (idle 42) (man_init (__init__ "ai" true) four_skip quiet_world)) with
  | Returned rs => forallb (fun r => negb (snd r)) rs = true
  | Raised _ => False
  end /\
  n_repeat_action (self collision_course) = 4 /\
  mode (self collision_course) = "ai"%string /\
  obstacle_sets (obstacle_manager (self collision_course)) =
    [[mkObstacle 0 809 186 30; mkObstacle 426 809 114 30];
     [mkObstacle 0 109 250 30; mkObstacle 490 109 50 30]] /\
  position (blue_ball (self collision_course)) = (170, 845) /\
  position (red_ball (self collision_course)) = (370, 845) /\
  i (self collision_course) = 29 /\
  score (self collision_course) = 0.
Proof. vm_compute. repeat split. Qed.

Lemma retiring_state :
  match fst (steps (idle 99) (man_init (__init__ "ai" true) two_skip_fixed quiet_world)) with
  | Returned rs => forallb (fun r => (snd (fst r) =? 0) && negb (snd r)) rs = true
  | Raised _ => False
  end /\
  n_repeat_action (self retiring) = 2 /\
  obstacle_sets (obstacle_manager (self retiring)) =
    [[mkObstacle 0 959 150 30; mkObstacle 390 959 150 30];
     [mkObstacle 0 259 150 30; mkObstacle 390 259 150 30]] /\
  i (self retiring) = 59 /\
  score (self retiring) = 0.
Proof. vm_compute. repeat split. Qed.

Lemma mid_episode_state :
  match fst (steps (idle 139) (man_init (__init__ "ai" true) two_skip_fixed quiet_world)) with
  | Returned rs => forallb (fun r => negb (snd r)) rs = true
  | Raised _ => False
  end /\
  n_repeat_action (self mid_episode) = 2 /\
  obstacle_sets (obstacle_manager (self mid_episode)) =
    [[mkObstacle 0 659 150 30; mkObstacle 390 659 150 30]] /\
  i (self mid_episode) = 139 /\
  score (self mid_episode) = 1.
Proof. vm_compute. repeat split. Qed.

(** C1.  Frame-skip 4 and the idle action, in the state an environment
    reaches 42 idle steps after construction (the first gate covers the blue
    ball and is two moves away from it): the first sub-step reports no
    collision, the second one does, and [step] nevertheless runs the third
    and the fourth.  It returns [done = true] with every obstacle moved four
    times and the counter advanced by four, not the state the second
    sub-step left. *)
Theorem step_runs_on_after_collision :
  let s0 := acting (Some 0) collision_course in
  range (n_repeat_action (self collision_course)) = [0; 1; 2; 3] /\
  fst (for_range [0] (false, 0) s0) = Returned (false, 0) /\
  fst (for_range [0; 1] (false, 0) s0) = Returned (true, 0) /\
  map (map ob_y)
      (obstacle_sets (obstacle_manager (self (snd (for_range [0; 1] (false, 0) s0))))) =
    [[819; 819]; [119; 119]] /\
  i (self (snd (for_range [0; 1] (false, 0) s0))) = 31 /\
  fst (step (Some 0) collision_course) =
    Returned (Some (CoordState [170; 845; 370; 845; 829; 859; 0; 186; 829; 859; 426; 540]),
              0, true) /\
  map (map ob_y)
      (obstacle_sets (obstacle_manager (self (snd (step (Some 0) collision_course))))) =
    [[829; 829]; [129; 129]] /\
  i (self (snd (step (Some 0) collision_course))) = 33.
Proof. vm_compute. repeat split. Qed.

(** C2, counterexample.  Frame-skip 2, in the state reached after 99 idle
    steps with fixed gates: the first sub-step retires the oldest set, the
    second neither retires nor collides, and [step] returns reward 1, not
    0. *)
Lemma earlier_retirement_counterexample :
  let s0 := acting (Some 0) retiring in
  let s1 := snd (sub_step 0 (false, 0) s0) in
  range (n_repeat_action (self retiring)) = [0; 1] /\
  retirement_due s0 = true /\
  retirement_due s1 = false /\
  ball_hits (self (snd (sub_step 1 (false, 1) s1))) = false /\
  fst (step (Some 0) retiring) =
    Returned (Some (CoordState [170; 845; 370; 845; 269; 299; 0; 150; 269; 299; 390; 540]),
              1, false).
Proof. vm_compute. repeat split. Qed.

(** The same call, as an instance of the general statement. *)
Lemma earlier_retirement_is_reported_witness :
  exists s3,
    for_range (range (n_repeat_action (self retiring))) (false, 0)
              (acting (Some 0) retiring) = (Returned (false, 1), s3) /\
    step (Some 0) retiring =
      match capture_state s3 with
      | (Returned state, s4) => (Returned (state, 1, false), s4)
      | (Raised e, s4) => (Raised e, s4)
      end.
Proof.
  apply (@earlier_retirement_is_reported sample_backend
           (Some 0) retiring [] 0 [1] false 0 (acting (Some 0) retiring) false 1
           (snd (sub_step 0 (false, 0) (acting (Some 0) retiring)))).
  - vm_compute. reflexivity.
  - reflexivity.
  - vm_compute. reflexivity.
  - vm_compute. reflexivity.
  - vm_compute. reflexivity.
  - vm_compute. repeat split.
Defined.


(** C4, counterexample.  In the second sub-step of the call above nothing
    is retired and nothing collides, yet the reward of the tick is 1. *)
Lemma reward_carried_counterexample :
  let s1 := snd (sub_step 0 (false, 0) (acting (Some 0) retiring)) in
  fst (sub_step 0 (false, 0) (acting (Some 0) retiring)) = Returned (false, 1) /\
  retirement_due s1 = false /\
  ball_hits (self (snd (sub_step 1 (false, 1) s1))) = false /\
  score (self (snd (sub_step 1 (false, 1) s1))) = score (self s1) /\
  fst (sub_step 1 (false, 1) s1) = Returned (false, 1).
Proof. vm_compute. repeat split. Qed.

(** The retiring sub-step of that call: the score grows by 1. *)
Lemma tick_score_and_reward_witness :
  let s := acting (Some 0) retiring in
  let s' := snd (sub_step 0 (false, 0) s) in
  sub_step 0 (false, 0) s = (Returned (false, 1), s') /\
  retirement_due s = true /\
  score (self s') = score (self s) + 1.
Proof.
  cbv zeta.
  assert (H : sub_step 0 (false, 0) (acting (Some 0) retiring) =
              (Returned (false, 1),
               snd (sub_step 0 (false, 0) (acting (Some 0) retiring))))
    by (vm_compute; reflexivity).
  assert (Hdue : retirement_due (acting (Some 0) retiring) = true)
    by (vm_compute; reflexivity).
  split; [exact H|]. split; [exact Hdue|].
  exact (proj2 (proj1 (proj2 (@tick_score_and_reward sample_backend 0 false 0
                                (acting (Some 0) retiring)) _ _ _ H)) Hdue).
Defined.



Lemma sample_gate_stays gap_left :
  stays_in_frame NEW_OBS_INTERVAL (gate_obstacles (gate_with_gap gap_left)).
Proof.
  unfold gate_with_gap.
  destruct (gap_left <=? 0); [|destruct (BOARD_WIDTH <=? _)].
  all: eexists; (split; [left; reflexivity|]).
  all: intros a Ha; unfold get_top; cbn [ob_y]; change OBSTACLE_STEP with 5.
  all: unfold SAMPLE_OBSTACLE_HEIGHT, NEW_OBS_INTERVAL, BOARD_HEIGHT in *; lia.
Qed.

Lemma sample_gates_outlast_interval : gates_outlast_interval.
Proof. split; [|intros d]; apply sample_gate_stays. Qed.

(** C6, counterexample.  The sample backend, in which a gate needs 199
    moves to leave the frame, and the environment 139 idle steps after
    construction: one gate is live, with its top at 659, and the counter is
    139.  [game_loop], called in this state, sets the counter to 1, so that
    the next spawn is 139 sub-steps away, while the gate leaves after 61.
    The 31st pass of the loop retires it in its first sub-step, no spawn is
    due, and the collision check asks the empty manager for its oldest set.
    Without the assignment of the counter the same 31 steps return. *)
Lemma game_loop_empties_manager :
  gates_outlast_interval /\
  map (map ob_y) (obstacle_sets (obstacle_manager (self mid_episode))) = [[659; 659]] /\
  i (self mid_episode) = 139 /\
  i (self (game_loop_entry mid_episode)) = 1 /\
  cadence (self mid_episode) /\
  ~ cadence (self (game_loop_entry mid_episode)) /\
  fst (game_loop_while 30 [] (game_loop_entry mid_episode)) = Returned None /\
  fst (game_loop_while 31 [] (game_loop_entry mid_episode)) =
    Raised (IndexError "oldest_obstacle_set") /\
  fst (game_loop (ret false) 31 [] mid_episode) =
    Raised (IndexError "oldest_obstacle_set") /\
  obstacle_sets
    (obstacle_manager
       (self (snd (game_loop_while 31 [] (game_loop_entry mid_episode))))) = [] /\
  queries_empty_manager (IndexError "oldest_obstacle_set") = true /\
  (exists rs, fst (steps (idle 31) mid_episode) = Returned rs).
Proof.
  split; [exact sample_gates_outlast_interval|].
  do 3 (split; [vm_compute; reflexivity|]).
  assert (Hsets : forall s,
            obstacle_sets (obstacle_manager (self s)) =
              [[mkObstacle 0 659 150 30; mkObstacle 390 659 150 30]] ->
            forall n, stays_in_frame n
                        [mkObstacle 0 659 150 30; mkObstacle 390 659 150 30] <->
                      exists older newest,
                        obstacle_sets (obstacle_manager (self s)) = older ++ [newest] /\
                        stays_in_frame n newest).
  { intros s -> n. split.
    - intros H. exists [], [mkObstacle 0 659 150 30; mkObstacle 390 659 150 30].
      split; [reflexivity|exact H].
    - intros (older & newest & E & H).
      destruct older as [|x [|y older]]; [|discriminate..].
      now injection E as <-. }
  split; [|split].
  - split; [vm_compute; split; [discriminate|reflexivity]|].
    apply (Hsets mid_episode); [vm_compute; reflexivity|].
    exists (mkObstacle 0 659 150 30). split; [now left|].
    intros a Ha. replace (spawn_margin (i (self mid_episode))) with 2 in Ha
      by (vm_compute; reflexivity).
    unfold get_top. cbn [ob_y]. change OBSTACLE_STEP with 5.
    unfold BOARD_HEIGHT. lia.
  - intros (_ & H). apply (Hsets (game_loop_entry mid_episode)) in H;
      [|vm_compute; reflexivity].
    replace (spawn_margin (i (self (game_loop_entry mid_episode)))) with 140 in H
      by (vm_compute; reflexivity).
    destruct H as (o & Hin & Ho). specialize (Ho 139 ltac:(lia)).
    revert Ho. change OBSTACLE_STEP with 5. unfold BOARD_HEIGHT.
    destruct Hin as [<-|[<-|[]]]; unfold get_top; cbn [ob_y]; lia.
  - do 5 (split; [vm_compute; reflexivity|]).
    eexists. vm_compute. reflexivity.
Qed.

(** With obstacles that fall 5 per tick a gate outlasts the interval: the
    state a first step leaves has a live set, no later step queries an empty
    manager, and neither does [game_loop] entered right after [man_init]. *)
Lemma step_finds_a_live_set_witness :
  let s0 := man_init (__init__ "ai" true) four_skip quiet_world in
  let s := snd (step (Some 0) s0) in
  gates_outlast_interval /\
  cadence (self s) /\
  obstacle_sets (obstacle_manager (self s)) <> [] /\
  (forall a e, fst (step a s) = Raised e -> queries_empty_manager e = false) /\
  (forall fuel polls e,
     fst (game_loop_while fuel polls (game_loop_entry s0)) = Raised e ->
     queries_empty_manager e = false).
Proof.
  cbv zeta.
  pose proof (@step_finds_a_live_set sample_backend sample_gates_outlast_interval)
    as (Hinit & _ & Hstep & Hentry & Hloop).
  pose proof (Hinit "ai"%string true four_skip quiet_world) as Hcad0.
  pose proof (proj1 (proj2 (proj2 (Hstep _ Hcad0)) (Some 0))) as Hcad.
  split; [exact sample_gates_outlast_interval|]. split; [exact Hcad|].
  split; [exact (proj1 (Hstep _ Hcad))|]. split.
  - intros a. exact (proj2 (proj2 (proj2 (Hstep _ Hcad)) a)).
  - intros fuel polls. exact (proj2 (Hloop _ fuel polls (Hentry _ Hcad0 eq_refl))).
Defined.

(** C7, counterexample.  An environment constructed with the mode
    ["keyboard"] is constructed and reset without any error; the first
    [step] raises. *)
Lemma construction_accepts_invalid_mode :
  let cfg := mkConfig "coord" "keyboard" true 1 true false false in
  let s := man_init (__init__ "keyboard" true) cfg quiet_world in
  valid_mode "keyboard" = false /\
  c_mode (__init__ "keyboard" true) = "keyboard"%string /\
  mode (self s) = "keyboard"%string /\
  fst (reset s) =
    Returned (Some (CoordState [170; 845; 370; 845; -31; -1; 0; 250; -31; -1; 490; 540])) /\
  fst (step (Some 0) (snd (reset s))) = Raised (ValueError "Invalid game mode 'keyboard'").
Proof. vm_compute. repeat split. Qed.

Lemma invalid_mode_surfaces_at_first_step_witness :
  let cfg := mkConfig "coord" "keyboard" true 1 true false false in
  let s := man_init (__init__ "keyboard" true) cfg quiet_world in
  step (Some 0) s =
    (Raised (ValueError "Invalid game mode 'keyboard'"),
     mkSt (set_action (Some 0) (self s)) (world s)).
Proof.
  cbv zeta.
  apply (@invalid_mode_surfaces_at_first_step sample_backend "keyboard" true
           (mkConfig "coord" "keyboard" true 1 true false false) quiet_world (Some 0)).
  - reflexivity.
  - reflexivity.
Defined.

(** A gate of one obstacle: four zeros at the end. *)
Lemma coord_state_layout_witness :
  obstacle_sets (obstacle_manager (self one_obstacle_gate)) =
    [[mkObstacle 240 (-31) 300 30]] /\
  _get_coord_state one_obstacle_gate =
    (Returned (CoordState [170; 845; 370; 845; -31; -1; 240; 540; 0; 0; 0; 0]),
     one_obstacle_gate).
Proof.
  split; [vm_compute; reflexivity|].
  apply (coord_state_layout one_obstacle_gate (mkObstacle 240 (-31) 300 30) [] []).
  vm_compute. reflexivity.
Defined.
(* ------------------------------------------------------------------ *)
(** ** Worked examples for the further properties *)

(** The step that retires the first gate returns reward 1. *)
Lemma step_reward_in_range_witness :
  step (Some 0) retiring =
    (Returned (Some (CoordState [170; 845; 370; 845; 269; 299; 0; 150; 269; 299; 390; 540]),
               1, false),
     snd (step (Some 0) retiring)) /\
  (1 = 0 \/ 1 = 1) /\
  fst reward_range <= 1 <= snd reward_range.
Proof.
  assert (H : step (Some 0) retiring =
    (Returned (Some (CoordState [170; 845; 370; 845; 269; 299; 0; 150; 269; 299; 390; 540]),
               1, false),
     snd (step (Some 0) retiring))) by (vm_compute; reflexivity).
  split; [exact H|].
  exact (@step_reward_in_range sample_backend _ _ _ _ _ _ H).
Defined.

(** The four sub-steps of the colliding call: the last three detect the
    collision. *)
Lemma step_reports_what_its_ticks_did_witness :
  let s := collision_course in
  let ticks := tick_events (range (n_repeat_action (self s))) (with_action (Some 0) s) in
  ticks = [(false, false); (false, true); (false, true); (false, true)] /\
  (true, 0) = fold_left settle ticks (false, 0) /\
  true = existsb snd ticks /\
  List.length ticks = Z.to_nat (n_repeat_action (self s)).
Proof.
  cbv zeta.
  assert (H : step (Some 0) collision_course =
    (Returned (Some (CoordState [170; 845; 370; 845; 829; 859; 0; 186; 829; 859; 426; 540]),
               0, true),
     snd (step (Some 0) collision_course))) by (vm_compute; reflexivity).
  split; [vm_compute; reflexivity|].
  exact (@step_reports_what_its_ticks_did sample_backend _ _ _ _ _ _ H).
Defined.

(** One of the two sub-steps of the retiring call retires a set. *)
Lemma step_score_counts_retirements_witness :
  let s := retiring in
  let s' := snd (step (Some 0) s) in
  let ticks := tick_events (range (n_repeat_action (self s))) (with_action (Some 0) s) in
  ticks = [(true, false); (false, false)] /\
  score (self s') = score (self s) + Z.of_nat (List.length (filter fst ticks)) /\
  score (self s) <= score (self s') <= score (self s) + Z.max 0 (n_repeat_action (self s)).
Proof.
  cbv zeta.
  assert (H : step (Some 0) retiring =
    (Returned (Some (CoordState [170; 845; 370; 845; 269; 299; 0; 150; 269; 299; 390; 540]),
               1, false),
     snd (step (Some 0) retiring))) by (vm_compute; reflexivity).
  split; [vm_compute; reflexivity|].
  exact (@step_score_counts_retirements sample_backend _ _ _ _ _ _ H).
Defined.

(** From counter 59 with two sub-steps per call to counter 61. *)
Lemma step_advances_counter_witness :
  let s := retiring in
  let s' := snd (step (Some 0) s) in
  i (self s) = 59 /\ i (self s') = 61 /\
  i (self s') =
    (if 0 <? n_repeat_action (self s)
     then (i (self s) + n_repeat_action (self s)) mod NEW_OBS_INTERVAL
     else i (self s)) /\
  (0 < n_repeat_action (self s) -> 0 <= i (self s') < NEW_OBS_INTERVAL).
Proof.
  cbv zeta.
  assert (H : step (Some 0) retiring =
    (Returned (Some (CoordState [170; 845; 370; 845; 269; 299; 0; 150; 269; 299; 390; 540]),
               1, false),
     snd (step (Some 0) retiring))) by (vm_compute; reflexivity).
  split; [vm_compute; reflexivity|]. split; [vm_compute; reflexivity|].
  exact (@step_advances_counter sample_backend _ _ _ _ _ _ H).
Defined.


(** Frame-skip 0: the observation is that of the state [man_init] left. *)
Lemma step_without_sub_steps_witness :
  let s := man_init (__init__ "ai" true) no_sub_steps quiet_world in
  n_repeat_action (self s) <= 0 /\
  fst (capture_state (with_action (Some 1) s)) =
    Returned (Some (CoordState [170; 845; 370; 845; -31; -1; 0; 150; -31; -1; 390; 540])) /\
  step (Some 1) s =
    (match fst (capture_state (with_action (Some 1) s)) with
     | Returned obs => Returned (obs, 0, false)
     | Raised e => Raised e
     end,
     with_action (Some 1) s).
Proof.
  cbv zeta.
  assert (Hn : n_repeat_action
                 (self (man_init (__init__ "ai" true) no_sub_steps quiet_world)) <= 0)
    by (vm_compute; discriminate).
  split; [exact Hn|]. split; [vm_compute; reflexivity|].
  exact (@step_without_sub_steps sample_backend (Some 1) _ Hn).
Defined.

(** Two spins to the left in pixel mode: the observation is the frame
    drawn from the state the call leaves. *)
Lemma frame_shows_final_state_witness :
  let s := man_init (__init__ "ai" true) pixel_mode quiet_world in
  let s' := snd (step (Some 1) s) in
  0 < n_repeat_action (self s) /\
  step (Some 1) s = (Returned (Some (PixelState (paint (self s'))), 0, false), s') /\
  screen (self s') = paint (self s') /\
  (capture (self s') = true -> state_rep (self s') = "pixel"%string ->
   Some (PixelState (paint (self s'))) = Some (PixelState (paint (self s')))).
Proof.
  cbv zeta.
  assert (Hn : 0 < n_repeat_action
                     (self (man_init (__init__ "ai" true) pixel_mode quiet_world)))
    by (vm_compute; reflexivity).
  assert (H : step (Some 1) (man_init (__init__ "ai" true) pixel_mode quiet_world) =
    (Returned
       (Some (PixelState
                (paint (self (snd (step (Some 1)
                   (man_init (__init__ "ai" true) pixel_mode quiet_world)))))),
        0, false),
     snd (step (Some 1) (man_init (__init__ "ai" true) pixel_mode quiet_world))))
    by (vm_compute; reflexivity).
  split; [exact Hn|]. split; [exact H|].
  exact (@frame_shows_final_state sample_backend _ _ _ _ _ _ Hn H).
Defined.

(** The representation ["both"], which [man_init] takes as it is: nothing
    is observed, in the first call and in the second. *)
Lemma unknown_state_rep_yields_no_observation_witness :
  let s := man_init (__init__ "ai" true) unknown_rep quiet_world in
  state_rep (self s) = "both"%string /\
  capture (self s) = true /\
  fst (steps [Some 1; Some 2] s) = Returned [(None, 0, false); (None, 0, false)] /\
  fst (reset s) = Returned None /\
  state_rep (self (snd (reset s))) = state_rep (self s) /\
  (forall a obs reward done s',
     step a s = (Returned (obs, reward, done), s') ->
     obs = None /\ state_rep (self s') = state_rep (self s)) /\
  (forall acts rs s',
     steps acts s = (Returned rs, s') ->
     Forall (fun r => fst (fst r) = None) rs).
Proof.
  cbv zeta. split; [reflexivity|]. split; [reflexivity|].
  split; [vm_compute; reflexivity|].
  exact (@unknown_state_rep_yields_no_observation sample_backend
           (man_init (__init__ "ai" true) unknown_rep quiet_world) eq_refl eq_refl).
Defined.

(** Manual mode on the sample backend: the first call returns. *)
Lemma step_always_returns_witness :
  let s := man_init (__init__ "ai" true) keyboard_mode four_polls in
  gates_outlast_interval /\
  ready (self s) /\
  exists obs reward done s',
    step (Some 1) s = (Returned (obs, reward, done), s') /\ ready (self s').
Proof.
  cbv zeta.
  pose proof (@step_always_returns sample_backend sample_gates_outlast_interval)
    as (Hinit & _ & Hstep).
  assert (Hr : ready (self (man_init (__init__ "ai" true) keyboard_mode four_polls)))
    by (apply Hinit; reflexivity).
  split; [exact sample_gates_outlast_interval|]. split; [exact Hr|].
  exact (Hstep (Some 1) _ Hr).
Defined.

(** Action 1 with two sub-steps per call: two spins to the left; the
    action 7 moves nothing. *)
Lemma ai_step_moves_by_action_witness :
  let s := man_init (__init__ "ai" true) two_skip_fixed quiet_world in
  let s' := snd (step (Some 1) s) in
  mode (self s) = "ai"%string /\
  theta (blue_ball (self s')) =
    PrimFloat.sub (PrimFloat.sub angle_pi SPIN_STEP) SPIN_STEP /\
  action (self s') = Some 1 /\
  blue_ball (self s') = spin_left (spin_left (blue_ball (self s))) /\
  red_ball (self s') = spin_left (spin_left (red_ball (self s))) /\
  blue_ball (self (snd (step (Some 7) s))) = blue_ball (self s) /\
  red_ball (self (snd (step (Some 7) s))) = red_ball (self s).
Proof.
  cbv zeta.
  assert (H1 : step (Some 1) (man_init (__init__ "ai" true) two_skip_fixed quiet_world) =
    (Returned (Some (CoordState [170; 849; 370; 841; -21; 9; 0; 150; -21; 9; 390; 540]),
               0, false),
     snd (step (Some 1) (man_init (__init__ "ai" true) two_skip_fixed quiet_world))))
    by (vm_compute; reflexivity).
  assert (H7 : step (Some 7) (man_init (__init__ "ai" true) two_skip_fixed quiet_world) =
    (Returned (Some (CoordState [170; 845; 370; 845; -21; 9; 0; 150; -21; 9; 390; 540]),
               0, false),
     snd (step (Some 7) (man_init (__init__ "ai" true) two_skip_fixed quiet_world))))
    by (vm_compute; reflexivity).
  pose proof (@ai_step_moves_by_action sample_backend (Some 1)
                (man_init (__init__ "ai" true) two_skip_fixed quiet_world) _ _ _ _
                eq_refl H1)
    as (Ha & Hb & Hr & _).
  pose proof (@ai_step_moves_by_action sample_backend (Some 7)
                (man_init (__init__ "ai" true) two_skip_fixed quiet_world) _ _ _ _
                eq_refl H7)
    as (_ & _ & _ & Hidle).
  split; [reflexivity|]. split; [vm_compute; reflexivity|].
  split; [exact Ha|]. split; [exact Hb|]. split; [exact Hr|].
  apply Hidle; discriminate.
Defined.

(** Manual mode, three sub-steps per call: three of the four pending key
    states are consumed. *)
Lemma keyboard_read_once_per_sub_step_witness :
  let s := man_init (__init__ "ai" true) keyboard_mode four_polls in
  let s' := snd (step None s) in
  keyboard (world s') = [mkKeys false false] /\
  keyboard (world s') =
    (if String.eqb (mode (self s)) "man"
     then skipn (Z.to_nat (n_repeat_action (self s))) (keyboard (world s))
     else keyboard (world s)).
Proof.
  cbv zeta.
  assert (H : step None (man_init (__init__ "ai" true) keyboard_mode four_polls) =
    (Returned (Some (CoordState [170; 847; 370; 843; -16; 14; 0; 150; -16; 14; 390; 540]),
               0, false),
     snd (step None (man_init (__init__ "ai" true) keyboard_mode four_polls))))
    by (vm_compute; reflexivity).
  split; [vm_compute; reflexivity|].
  exact (@keyboard_read_once_per_sub_step sample_backend _ _ _ _ _ _ H).
Defined.

(** Manual mode: the actions 1 and 2 give the same call. *)
Lemma other_modes_ignore_the_action_witness :
  let s := man_init (__init__ "ai" true) keyboard_mode four_polls in
  String.eqb (mode (self s)) "ai" = false /\
  fst (step (Some 1) s) = fst (step (Some 2) s) /\
  snd (step (Some 1) s) = with_action (Some 1) (snd (step (Some 2) s)) /\
  action (self (snd (step (Some 1) s))) = Some 1.
Proof.
  cbv zeta. split; [reflexivity|].
  exact (@other_modes_ignore_the_action sample_backend (Some 1) (Some 2)
           (man_init (__init__ "ai" true) keyboard_mode four_polls) eq_refl).
Defined.

(** The colliding call with the window closed during the same pass, and a
    game-over screen that answers with a restart: the loop yields
    [False]. *)
Lemma game_loop_result_witness :
  let s := collision_course in
  let s' := snd (game_loop (ret false) 1 [[QUIT]] s) in
  game_loop (ret false) 1 [[QUIT]] s = (Returned (Some false), s') /\
  exists game_over closed s1,
    game_loop_while 1 [[QUIT]] (mkSt (set_score 0 (set_i 1 (self s))) (world s)) =
      (Returned (Some (game_over, closed)), s1) /\
    (game_over = true -> ret false s1 = (Returned false, s')) /\
    (game_over = false -> closed = true /\ false = true /\ s' = s1).
Proof.
  cbv zeta.
  assert (H : game_loop (ret false) 1 [[QUIT]] collision_course =
              (Returned (Some false),
               snd (game_loop (ret false) 1 [[QUIT]] collision_course)))
    by (vm_compute; reflexivity).
  split; [exact H|].
  exact (@game_loop_result sample_backend _ _ _ _ _ _ H).
Defined.

(** Three passes of the loop in mode ["ai"], the window closed in the
    third. *)
Lemma game_loop_in_ai_mode_plays_idle_witness :
  let s := man_init (__init__ "ai" true) four_skip quiet_world in
  let s0 := mkSt (set_score 0 (set_i 1 (self s))) (world s) in
  let s' := snd (game_loop_while 3 [[]; []; [QUIT]] s0) in
  game_loop_while 3 [[]; []; [QUIT]] s0 = (Returned (Some (false, true)), s') /\
  i (self s') = 13 /\
  blue_ball (self s') = blue_ball (self s) /\
  red_ball (self s') = red_ball (self s) /\
  keyboard (world s') = keyboard (world s).
Proof.
  cbv zeta.
  assert (H : game_loop_while 3 [[]; []; [QUIT]]
                (mkSt (set_score 0 (set_i 1
                         (self (man_init (__init__ "ai" true) four_skip quiet_world))))
                      (world (man_init (__init__ "ai" true) four_skip quiet_world))) =
              (Returned (Some (false, true)),
               snd (game_loop_while 3 [[]; []; [QUIT]]
                      (mkSt (set_score 0 (set_i 1
                               (self (man_init (__init__ "ai" true) four_skip quiet_world))))
                            (world (man_init (__init__ "ai" true) four_skip quiet_world))))))
    by (vm_compute; reflexivity).
  split; [exact H|]. split; [vm_compute; reflexivity|].
  exact (@game_loop_in_ai_mode_plays_idle sample_backend 3 [[]; []; [QUIT]]
           (man_init (__init__ "ai" true) four_skip quiet_world) _ _ eq_refl H).
Defined.
